(** * CURT chatbot backend: memory window, prompt helpers and RAG pipeline

    A shallow embedding of [backend/memory_maager.py], [backend/prompts.py]
    and [backend/rag_pipeline.py], followed by the properties of the
    specification stated and proved (or refuted) against it.

    Conventions of the embedding.
    - Python [str] is modelled by [string]; the text model is ASCII: the
      case mappings below change the letters A-Z / a-z only and leave every
      other character code as it is.
    - A Python [dict] with string keys is a [gmap string _].
    - Python [int] is [Z]; list positions produced by [enumerate] are [nat].
    - The hosted collaborators (expansion model, retriever, reranker,
      answer model, verifier) are functions that return a value or raise;
      [run] threads the raised exception and a log of the external calls
      it makes through a small monad.  [print] statements are not modelled. *)

From Stdlib Require Import ZArith String Ascii List Bool Sorted Lia.
From stdpp Require Import base option list gmap strings pretty.

Open Scope string_scope.
Open Scope Z_scope.

(** ** Python text primitives *)

Module PyStr.

Definition is_upper_ascii (c : ascii) : bool :=
  let n := nat_of_ascii c in (Nat.leb 65 n && Nat.leb n 90)%bool.

Definition is_lower_ascii (c : ascii) : bool :=
  let n := nat_of_ascii c in (Nat.leb 97 n && Nat.leb n 122)%bool.

(** [str.isspace] on one character of the ASCII range. *)
Definition is_space (c : ascii) : bool :=
  let n := nat_of_ascii c in
  ((Nat.leb 9 n && Nat.leb n 13) || (Nat.leb 28 n && Nat.leb n 32))%bool.

Definition lower_char (c : ascii) : ascii :=
  if is_upper_ascii c then ascii_of_nat (nat_of_ascii c + 32) else c.

Definition upper_char (c : ascii) : ascii :=
  if is_lower_ascii c then ascii_of_nat (nat_of_ascii c - 32) else c.

Fixpoint map_chars (f : ascii -> ascii) (s : string) : string :=
  match s with
  | EmptyString => EmptyString
  | String c s' => String (f c) (map_chars f s')
  end.

(** [s.lower()] and [s.upper()] *)
Definition lower (s : string) : string := map_chars lower_char s.
Definition upper (s : string) : string := map_chars upper_char s.

(** [s.lstrip()] *)
Fixpoint lstrip (s : string) : string :=
  match s with
  | EmptyString => EmptyString
  | String c s' => if is_space c then lstrip s' else s
  end.

(** [s.rstrip()]: a character is dropped when it is white space and
    everything after it has been dropped. *)
Fixpoint rstrip (s : string) : string :=
  match s with
  | EmptyString => EmptyString
  | String c s' =>
      match rstrip s' with
      | EmptyString => if is_space c then EmptyString else String c EmptyString
      | r => String c r
      end
  end.

(** [s.strip()] *)
Definition strip (s : string) : string := rstrip (lstrip s).

(** [s.startswith(p)] *)
Fixpoint startswith (s p : string) {struct p} : bool :=
  match p, s with
  | EmptyString, _ => true
  | String _ _, EmptyString => false
  | String a p', String b s' =>
      if Ascii.eqb a b then startswith s' p' else false
  end.

(** [sub in s] for two strings: [sub] occurs in [s] at some offset. *)
Fixpoint contains (sub s : string) : bool :=
  if startswith s sub then true
  else match s with
       | EmptyString => false
       | String _ s' => contains sub s'
       end.

(** The meaning of [contains]: some text, then [sub], then some text. *)
Definition Substring (sub s : string) : Prop :=
  exists pre post : string, s = pre ++ sub ++ post.

(** [sep.join(parts)] *)
Fixpoint join (sep : string) (parts : list string) : string :=
  match parts with
  | [] => ""
  | [p] => p
  | p :: rest => p ++ sep ++ join sep rest
  end.

(** Line feed, the character written [\n] in the Python sources. *)
Definition LF : string := String (ascii_of_nat 10) EmptyString.

End PyStr.

(** ** prompts.py: canned responses and the two keyword classifiers *)

Module Prompts.
Import PyStr.

Definition NO_CONTEXT_RESPONSE : string :=
  "I don't have specific information about that in my current knowledge base. " ++ LF ++
  LF ++
  "Here's what I can help you with:" ++ LF ++
  "- CURT team structure and members" ++ LF ++
  "- History and achievements" ++ LF ++
  "- Current projects and competitions" ++ LF ++
  "- FAQs about joining or collaborating" ++ LF ++
  LF ++
  "You can also reach out to CURT directly through their official channels for more detailed information.".

Definition GREETING_RESPONSE : string :=
  "Hello! I'm the CURT chatbot, here to help you learn about the Cairo University Racing Team." ++ LF ++
  LF ++
  "I can tell you about:" ++ LF ++
  "- Our team structure and members" ++ LF ++
  "- Competition history and achievements  " ++ LF ++
  "- Current projects" ++ LF ++
  "- How to get involved" ++ LF ++
  LF ++
  "What would you like to know?".

Definition OFF_TOPIC_RESPONSE : string :=
  "I'm specifically designed to answer questions about CURT (Cairo University Racing Team). " ++ LF ++
  LF ++
  "I can help you with information about:" ++ LF ++
  "- The team and its members" ++ LF ++
  "- Competitions and achievements" ++ LF ++
  "- Projects and technical work" ++ LF ++
  "- How to join or collaborate" ++ LF ++
  LF ++
  "Is there anything about CURT I can help you with?".

Definition greetings : list string :=
  ["hi"; "hello"; "hey"; "greetings"; "good morning"; "good afternoon"; "good evening"].

(** [x in xs] for a list of strings *)
Definition str_in_list (x : string) (xs : list string) : bool :=
  existsb (String.eqb x) xs.

Definition is_greeting (query : string) : bool :=
  let query_lower := strip (lower query) in
  (str_in_list query_lower greetings
   || existsb (fun g => startswith query_lower (g ++ " ")
                        || startswith query_lower (g ++ ","))
              greetings)%bool.

Definition off_topic_keywords : list string :=
  ["weather"; "recipe"; "movie"; "sports score"; "politics";
   "stock"; "celebrity"; "video game"; "restaurant"; "fashion"].

Definition on_topic_terms : list string :=
  ["curt"; "car"; "racing team"; "competition"; "racing"; "cairo university"].

Definition is_off_topic (query : string) : bool :=
  let query_lower := lower query in
  if existsb (fun term => contains term query_lower) on_topic_terms
  then false
  else existsb (fun keyword => contains keyword query_lower) off_topic_keywords.

End Prompts.

(** ** Python list primitives *)

Module PyList.
Section Slices.
Context {A : Type}.

(** [l[start:]]: a negative [start] counts from the end; the bound is
    clamped to the list. *)
Definition slice_from (start : Z) (l : list A) : list A :=
  let n := Z.of_nat (length l) in
  let lo := if start <? 0 then Z.max (start + n) 0 else Z.min start n in
  drop (Z.to_nat lo) l.

(** [l[:stop]] *)
Definition slice_to (stop : Z) (l : list A) : list A :=
  let n := Z.of_nat (length l) in
  let hi := if stop <? 0 then Z.max (stop + n) 0 else Z.min stop n in
  take (Z.to_nat hi) l.

(** The position [l[i]] reads or writes: a negative [i] counts from the
    end, [None] stands for [IndexError]. *)
Definition norm_index (i : Z) (l : list A) : option nat :=
  let n := Z.of_nat (length l) in
  let j := if i <? 0 then i + n else i in
  if (0 <=? j) && (j <? n) then Some (Z.to_nat j) else None.

(** [enumerate(l, start)] *)
Fixpoint enumerate (start : nat) (l : list A) : list (nat * A) :=
  match l with
  | [] => []
  | x :: rest => (start, x) :: enumerate (S start) rest
  end.
End Slices.
End PyList.

(** ** memory_maager.py *)

(** A chat message: a dict with string keys and string values, normally
    [{"role": ..., "content": ...}]. *)
Abbreviation Message := (gmap string string).

Definition user_msg (content : string) : Message :=
  {[ "role" := "user"; "content" := content ]}.

Definition assistant_msg (content : string) : Message :=
  {[ "role" := "assistant"; "content" := content ]}.

Module MemoryManager.
Import PyList.

Record t := { window_size : Z }.

Definition get_recent_history (self : t) (full_history : list Message) : list Message :=
  match full_history with
  | [] => []
  | _ =>
      let max_messages := window_size self * 2 in
      slice_from (- max_messages) full_history
  end.

Definition get_last_pair (self : t) (full_history : list Message) : list Message :=
  if Z.of_nat (length full_history) <? 2 then [] else slice_from (-2) full_history.

End MemoryManager.

(** ** Documents and chunks *)

(** A metadata value: text written by the document loader, or the float
    stored by the reranking step.  The float is carried as its [repr] text;
    the code stores it and never computes with it. *)
Inductive MetaVal :=
  | MStr (s : string)
  | MFloat (repr : string).

Global Instance MetaVal_eq_dec : EqDecision MetaVal.
Proof. solve_decision. Defined.

Global Instance MetaVal_countable : Countable MetaVal.
Proof.
  refine (inj_countable'
            (fun v => match v with MStr s => inl s | MFloat r => inr r end)
            (fun x => match x with inl s => MStr s | inr r => MFloat r end) _).
  intros []; reflexivity.
Defined.

(** [str(v)], as the f-string of [format_sources] renders it. *)
Definition py_str (v : MetaVal) : string :=
  match v with MStr s => s | MFloat r => r end.

(** langchain's [Document]: text and a metadata dict. *)
Record Document := { page_content : string; metadata : gmap string MetaVal }.

(** What [format_sources] accepts: an object with a [metadata] attribute,
    or a plain dict, of which only the keys ['source'] and ['metadata'] are
    read (the latter holding a dict when present). *)
Inductive Chunk :=
  | ChunkDoc (d : Document)
  | ChunkDict (source : option MetaVal) (meta : option (gmap string MetaVal)).

(** langchain's message objects built by [format_chat_history]. *)
Inductive BaseMessage :=
  | HumanMessage (content : string)
  | AIMessage (content : string).

(** ** prompts.py: citations and chat history *)

Module Cite.
Import PyStr PyList.

Definition Unknown : MetaVal := MStr "Unknown".

(** The [source] computed at the head of the loop body. *)
Definition chunk_source (chunk : Chunk) : MetaVal :=
  match chunk with
  | ChunkDoc d => default Unknown (metadata d !! "source")
  | ChunkDict src meta =>
      default (default Unknown (default ∅ meta !! "source")) src
  end.

Definition sources_header : string := LF ++ LF ++ "**Sources:**" ++ LF.

(** The line [f"{i}. {source}\n"]. *)
Definition source_line (i : nat) (source : MetaVal) : string :=
  pretty i ++ ". " ++ py_str source ++ LF.

(** The [for] loop of [format_sources] over the enumerated chunks; the
    state is the pair of the local variables [sources], [seen_sources]. *)
Fixpoint format_sources_loop (ics : list (nat * Chunk))
         (sources : string) (seen_sources : gset MetaVal) : string * gset MetaVal :=
  match ics with
  | [] => (sources, seen_sources)
  | (i, chunk) :: rest =>
      let source := chunk_source chunk in
      if decide (source ∈ seen_sources)
      then format_sources_loop rest sources seen_sources
      else format_sources_loop rest (sources ++ source_line i source)
                               ({[source]} ∪ seen_sources)
  end.

Definition format_sources (chunks : list Chunk) : string :=
  match chunks with
  | [] => ""
  | _ => fst (format_sources_loop (enumerate 1 chunks) sources_header ∅)
  end.

(** The citations the loop emits: the pairs [(i, source)] for which the
    body of the [if] runs, in the order in which it runs. *)
Fixpoint citations_loop (ics : list (nat * Chunk)) (seen_sources : gset MetaVal)
  : list (nat * MetaVal) :=
  match ics with
  | [] => []
  | (i, chunk) :: rest =>
      let source := chunk_source chunk in
      if decide (source ∈ seen_sources)
      then citations_loop rest seen_sources
      else (i, source) :: citations_loop rest ({[source]} ∪ seen_sources)
  end.

Definition citations (chunks : list Chunk) : list (nat * MetaVal) :=
  citations_loop (enumerate 1 chunks) ∅.

(** The text of a list of citations, one [source_line] each. *)
Fixpoint render_citations (cs : list (nat * MetaVal)) : string :=
  match cs with
  | [] => ""
  | (i, source) :: rest => source_line i source ++ render_citations rest
  end.

(** [f"{answer}\n{sources}" if sources else answer] *)
Definition enhance_response_with_sources (answer : string) (chunks : list Chunk) : string :=
  let sources := format_sources chunks in
  if String.eqb sources "" then answer else answer ++ LF ++ sources.

(** What one iteration of the loop of [format_chat_history] appends for
    [msg], if anything. *)
Definition message_object (msg : Message) : option BaseMessage :=
  let role := default "user" (msg !! "role") in
  let content := default "" (msg !! "content") in
  if String.eqb role "user" then Some (HumanMessage content)
  else if String.eqb role "assistant" then Some (AIMessage content)
  else None.

(** The [for] loop of [format_chat_history]; [formatted] is the list
    being appended to. *)
Fixpoint format_chat_history_loop (messages : list Message)
         (formatted : list BaseMessage) : list BaseMessage :=
  match messages with
  | [] => formatted
  | msg :: rest =>
      let role := default "user" (msg !! "role") in
      let content := default "" (msg !! "content") in
      if String.eqb role "user"
      then format_chat_history_loop rest (formatted ++ [HumanMessage content])
      else if String.eqb role "assistant"
      then format_chat_history_loop rest (formatted ++ [AIMessage content])
      else format_chat_history_loop rest formatted
  end.

Definition format_chat_history (messages : list Message) : list BaseMessage :=
  format_chat_history_loop messages [].

End Cite.


(** ** rag_pipeline.py *)

(** Exceptions: whatever a hosted collaborator raises, and the
    [IndexError] of an out-of-range list subscript. *)
Inductive PyExc :=
  | CollaboratorError (msg : string)
  | IndexError.

Inductive result (A : Type) :=
  | Ok (a : A)
  | Raise (e : PyExc).
Arguments Ok {A} a.
Arguments Raise {A} e.

(** One entry of [rerank_response.results]. *)
Record RerankResult := { index : Z; relevance_score : string }.

(** The external calls [run] can make, with their arguments. *)
Inductive Call :=
  | CallExpansion (query : string)
  | CallRetriever (expanded_query : string)
  | CallRerank (query : string) (documents : list string) (top_n : Z)
  | CallRag (context question : string) (chat_history : list BaseMessage)
  | CallHallucination (context answer : string).

(** The collaborators held by a [CURTRagPipeline] instance. *)
Record Collaborators := {
  expansion_chain : string -> result string;
  retriever : string -> result (list Document);
  cohere_rerank : string -> list string -> Z -> result (list RerankResult);
  rag_chain : string -> string -> list BaseMessage -> result string;
  hallucination_chain : string -> string -> result string
}.

(** Values stored in the dict that [run] returns. *)
Inductive PyVal :=
  | VStr (s : string)
  | VDocs (docs : list Document).

Module Pipeline.
Import PyStr PyList.

(** A computation yields a value or an exception, and the log of the
    external calls made up to that point. *)
Definition M (A : Type) : Type := result A * list Call.

Definition ret {A} (a : A) : M A := (Ok a, []).

Definition bind {A B} (m : M A) (k : A -> M B) : M B :=
  match m with
  | (Ok a, log) => let '(r, log') := k a in (r, (log ++ log')%list)
  | (Raise e, log) => (Raise e, log)
  end.

(** An external call: its outcome, logged. *)
Definition call {A} (c : Call) (outcome : result A) : M A := (outcome, [c]).

Notation "'let*' x ':=' m 'in' k" := (bind m (fun x => k))
  (at level 10, x name, m at level 100, k at level 200).

Definition set_rerank_score (score : string) (d : Document) : Document :=
  {| page_content := page_content d;
     metadata := <["rerank_score" := MFloat score]> (metadata d) |}.

(** The [for] loop of [_rerank_with_cohere].  [documents] holds the
    Document objects, which the loop mutates in place; [reranked_docs]
    holds references to them, as positions in [documents].  The loop ends
    normally or with the [IndexError] of [documents[result.index]]; the
    mutations made before the exception stay. *)
Fixpoint rerank_loop (results : list RerankResult) (documents : list Document)
         (reranked_docs : list nat) : list Document * result (list nat) :=
  match results with
  | [] => (documents, Ok reranked_docs)
  | r :: rest =>
      match norm_index (index r) documents with
      | None => (documents, Raise IndexError)
      | Some j =>
          rerank_loop rest
            (alter (set_rerank_score (relevance_score r)) j documents)
            (reranked_docs ++ [j])%list
      end
  end.

(** The objects a list of references points to. *)
Definition deref (documents : list Document) (refs : list nat) : list Document :=
  omap (fun j => documents !! j) refs.

(** [_rerank_with_cohere]: the [try] block is the reranking call followed
    by the loop; the [except Exception] handler returns [documents[:top_n]],
    read after whatever the loop has already written. *)
Definition _rerank_with_cohere (self : Collaborators) (query : string)
           (documents : list Document) (top_n : Z) : M (list Document) :=
  match documents with
  | [] => ret []
  | _ =>
      let doc_texts := map page_content documents in
      match call (CallRerank query doc_texts top_n)
                 (cohere_rerank self query doc_texts top_n) with
      | (Ok results, log) =>
          match rerank_loop results documents [] with
          | (documents', Ok reranked_docs) => (Ok (deref documents' reranked_docs), log)
          | (documents', Raise _) => (Ok (slice_to top_n documents'), log)
          end
      | (Raise _, log) => (Ok (slice_to top_n documents), log)
      end
  end.

Definition DISCLAIMER : string :=
  LF ++ LF ++ "*(Note: I verified this answer against my database and found some parts might not be explicitly supported. Please verify with official team documents.)*".

Definition run (self : Collaborators) (query : string) (chat_history : list Message)
  : M (gmap string PyVal) :=
  if Prompts.is_greeting query then
    ret (list_to_map [("answer", VStr Prompts.GREETING_RESPONSE);
                      ("sources", VDocs []);
                      ("status", VStr "greeting")])
  else if Prompts.is_off_topic query then
    ret (list_to_map [("answer", VStr Prompts.OFF_TOPIC_RESPONSE);
                      ("sources", VDocs []);
                      ("status", VStr "off_topic")])
  else
    let* expanded_query := call (CallExpansion query) (expansion_chain self query) in
    let* raw_docs := call (CallRetriever expanded_query) (retriever self expanded_query) in
    match raw_docs with
    | [] =>
        ret (list_to_map [("answer", VStr Prompts.NO_CONTEXT_RESPONSE);
                          ("sources", VDocs []);
                          ("status", VStr "no_docs")])
    | _ =>
        let* valid_docs := _rerank_with_cohere self query raw_docs 5 in
        let compressed_context := join (LF ++ LF) (map page_content valid_docs) in
        let formatted_history := Cite.format_chat_history chat_history in
        let* answer := call (CallRag compressed_context query formatted_history)
                            (rag_chain self compressed_context query formatted_history) in
        let* check_result := call (CallHallucination compressed_context answer)
                                  (hallucination_chain self compressed_context answer) in
        let answer :=
          if startswith (upper (strip check_result)) "HALLUCINATION"
          then answer ++ DISCLAIMER else answer in
        let final_response :=
          Cite.enhance_response_with_sources answer (map ChunkDoc valid_docs) in
        ret (list_to_map [("answer", VStr final_response);
                          ("raw_answer", VStr answer);
                          ("sources", VDocs valid_docs);
                          ("expanded_query", VStr expanded_query);
                          ("status", VStr "success")])
    end.

(** [result[key]] as text, for the outcome of a [run] that returned. *)
Definition text_field (key : string) (outcome : M (gmap string PyVal)) : option string :=
  match fst outcome with
  | Ok res => match res !! key with Some (VStr s) => Some s | _ => None end
  | Raise _ => None
  end.

(** The outcomes of [run], path by path: the value or exception it ends
    with and the external calls it has made by then. *)
Inductive RunOutcome (self : Collaborators) (query : string)
          (chat_history : list Message) : M (gmap string PyVal) -> Prop :=
  | OutGreeting :
      Prompts.is_greeting query = true ->
      RunOutcome self query chat_history
        (Ok (list_to_map [("answer", VStr Prompts.GREETING_RESPONSE);
                          ("sources", VDocs []);
                          ("status", VStr "greeting")]), [])
  | OutOffTopic :
      Prompts.is_greeting query = false ->
      Prompts.is_off_topic query = true ->
      RunOutcome self query chat_history
        (Ok (list_to_map [("answer", VStr Prompts.OFF_TOPIC_RESPONSE);
                          ("sources", VDocs []);
                          ("status", VStr "off_topic")]), [])
  | OutExpansionRaises e :
      Prompts.is_greeting query = false ->
      Prompts.is_off_topic query = false ->
      expansion_chain self query = Raise e ->
      RunOutcome self query chat_history (Raise e, [CallExpansion query])
  | OutRetrieverRaises expanded_query e :
      Prompts.is_greeting query = false ->
      Prompts.is_off_topic query = false ->
      expansion_chain self query = Ok expanded_query ->
      retriever self expanded_query = Raise e ->
      RunOutcome self query chat_history
        (Raise e, [CallExpansion query; CallRetriever expanded_query])
  | OutNoDocs expanded_query :
      Prompts.is_greeting query = false ->
      Prompts.is_off_topic query = false ->
      expansion_chain self query = Ok expanded_query ->
      retriever self expanded_query = Ok [] ->
      RunOutcome self query chat_history
        (Ok (list_to_map [("answer", VStr Prompts.NO_CONTEXT_RESPONSE);
                          ("sources", VDocs []);
                          ("status", VStr "no_docs")]),
         [CallExpansion query; CallRetriever expanded_query])
  | OutRagRaises expanded_query raw_docs valid_docs e :
      Prompts.is_greeting query = false ->
      Prompts.is_off_topic query = false ->
      expansion_chain self query = Ok expanded_query ->
      retriever self expanded_query = Ok raw_docs ->
      raw_docs <> [] ->
      _rerank_with_cohere self query raw_docs 5
        = (Ok valid_docs, [CallRerank query (map page_content raw_docs) 5]) ->
      rag_chain self (join (LF ++ LF) (map page_content valid_docs)) query
                (Cite.format_chat_history chat_history) = Raise e ->
      RunOutcome self query chat_history
        (Raise e,
         [CallExpansion query; CallRetriever expanded_query;
          CallRerank query (map page_content raw_docs) 5;
          CallRag (join (LF ++ LF) (map page_content valid_docs)) query
                  (Cite.format_chat_history chat_history)])
  | OutVerifierRaises expanded_query raw_docs valid_docs answer e :
      Prompts.is_greeting query = false ->
      Prompts.is_off_topic query = false ->
      expansion_chain self query = Ok expanded_query ->
      retriever self expanded_query = Ok raw_docs ->
      raw_docs <> [] ->
      _rerank_with_cohere self query raw_docs 5
        = (Ok valid_docs, [CallRerank query (map page_content raw_docs) 5]) ->
      rag_chain self (join (LF ++ LF) (map page_content valid_docs)) query
                (Cite.format_chat_history chat_history) = Ok answer ->
      hallucination_chain self (join (LF ++ LF) (map page_content valid_docs)) answer
        = Raise e ->
      RunOutcome self query chat_history
        (Raise e,
         [CallExpansion query; CallRetriever expanded_query;
          CallRerank query (map page_content raw_docs) 5;
          CallRag (join (LF ++ LF) (map page_content valid_docs)) query
                  (Cite.format_chat_history chat_history);
          CallHallucination (join (LF ++ LF) (map page_content valid_docs)) answer])
  | OutSuccess expanded_query raw_docs valid_docs answer check_result :
      Prompts.is_greeting query = false ->
      Prompts.is_off_topic query = false ->
      expansion_chain self query = Ok expanded_query ->
      retriever self expanded_query = Ok raw_docs ->
      raw_docs <> [] ->
      _rerank_with_cohere self query raw_docs 5
        = (Ok valid_docs, [CallRerank query (map page_content raw_docs) 5]) ->
      rag_chain self (join (LF ++ LF) (map page_content valid_docs)) query
                (Cite.format_chat_history chat_history) = Ok answer ->
      hallucination_chain self (join (LF ++ LF) (map page_content valid_docs)) answer
        = Ok check_result ->
      RunOutcome self query chat_history
        (Ok (list_to_map
               [("answer",
                 VStr (Cite.enhance_response_with_sources
                         (if startswith (upper (strip check_result)) "HALLUCINATION"
                          then answer ++ DISCLAIMER else answer)
                         (map ChunkDoc valid_docs)));
                ("raw_answer",
                 VStr (if startswith (upper (strip check_result)) "HALLUCINATION"
                       then answer ++ DISCLAIMER else answer));
                ("sources", VDocs valid_docs);
                ("expanded_query", VStr expanded_query);
                ("status", VStr "success")]),
         [CallExpansion query; CallRetriever expanded_query;
          CallRerank query (map page_content raw_docs) 5;
          CallRag (join (LF ++ LF) (map page_content valid_docs)) query
                  (Cite.format_chat_history chat_history);
          CallHallucination (join (LF ++ LF) (map page_content valid_docs)) answer]).

End Pipeline.

(** ** Sample inputs used by the examples below *)

Module Samples.

Definition chunk_A : Chunk := ChunkDict (Some (MStr "A")) None.

Definition chunk_B : Chunk :=
  ChunkDoc {| page_content := "text"; metadata := {[ "source" := MStr "B" ]} |}.

Definition doc (n : string) : Document :=
  {| page_content := "text of " ++ n; metadata := {[ "source" := MStr n ]} |}.

Definition six_docs : list Document :=
  [doc "d1"; doc "d2"; doc "d3"; doc "d4"; doc "d5"; doc "d6"].

(** Collaborators that are all down. *)
Definition offline : Collaborators :=
  {| expansion_chain := fun _ => Raise (CollaboratorError "down");
     retriever := fun _ => Raise (CollaboratorError "down");
     cohere_rerank := fun _ _ _ => Raise (CollaboratorError "down");
     rag_chain := fun _ _ _ => Raise (CollaboratorError "down");
     hallucination_chain := fun _ _ => Raise (CollaboratorError "down") |}.

(** Six candidates are retrieved, the reranker is down, and the verifier
    answers with [verdict]. *)
Definition rerank_down (verdict : string) : Collaborators :=
  {| expansion_chain := fun q => Ok ("expanded: " ++ q);
     retriever := fun _ => Ok six_docs;
     cohere_rerank := fun _ _ _ => Raise (CollaboratorError "rerank down");
     rag_chain := fun _ _ _ => Ok "Draft answer.";
     hallucination_chain := fun _ _ => Ok verdict |}.

(** The reranker answers with a valid position and then one out of range. *)
Definition rerank_bad_index : Collaborators :=
  {| expansion_chain := fun q => Ok ("expanded: " ++ q);
     retriever := fun _ => Ok [doc "d1"; doc "d2"];
     cohere_rerank := fun _ _ _ =>
       Ok [ {| index := 1; relevance_score := "0.9" |};
            {| index := 7; relevance_score := "0.1" |} ];
     rag_chain := fun _ _ _ => Ok "Draft answer.";
     hallucination_chain := fun _ _ => Ok "GROUNDED" |}.

End Samples.

(** ** memory_maager.py: statistics and validation *)

(** An element of the list given to [validate_history]: a dict with string
    values, or anything that is not a dict. *)
Inductive HistoryItem :=
  | ItemDict (msg : Message)
  | ItemOther.

Module MemoryTools.
Import PyList MemoryManager.

(** [sum(len(msg.get('content', '')) for msg in messages)] *)
Definition total_chars (messages : list Message) : Z :=
  fold_left (fun acc msg => acc + Z.of_nat (String.length (default "" (msg !! "content"))))
            messages 0.

(** [total_chars // 4] *)
Definition estimate_tokens (self : t) (messages : list Message) : Z :=
  total_chars messages / 4.

Definition get_stats (self : t) (full_history : list Message) : gmap string Z :=
  let recent := get_recent_history self full_history in
  list_to_map [("total_messages_in_session", Z.of_nat (length full_history));
               ("window_size_pairs", window_size self);
               ("messages_in_memory", Z.of_nat (length recent));
               ("estimated_memory_tokens", estimate_tokens self recent);
               ("memory_pairs", Z.of_nat (length recent) / 2)].

(** The [for] loop of [validate_history], with its early returns. *)
Fixpoint validate_history_loop (history : list HistoryItem) : bool :=
  match history with
  | [] => true
  | ItemOther :: _ => false
  | ItemDict msg :: rest =>
      match msg !! "role", msg !! "content" with
      | Some role, Some _ =>
          if Prompts.str_in_list role ["user"; "assistant"]
          then validate_history_loop rest
          else false
      | _, _ => false
      end
  end.

Definition validate_history (self : t) (history : list HistoryItem) : bool :=
  match history with
  | [] => true
  | _ => validate_history_loop history
  end.

End MemoryTools.

(** ** Notions used to state properties *)

Module Notions.

(** [s] is empty or white space only. *)
Fixpoint is_blank (s : string) : bool :=
  match s with
  | EmptyString => true
  | String c s' => (PyStr.is_space c && is_blank s')%bool
  end.

(** [d] is [d0] up to the ['rerank_score'] entry of its metadata. *)
Definition same_document (d d0 : Document) : Prop :=
  page_content d = page_content d0
  /\ forall key : string, key <> "rerank_score" -> metadata d !! key = metadata d0 !! key.

(** [d] carries a ['rerank_score']. *)
Definition has_score (d : Document) : Prop :=
  is_Some (metadata d !! "rerank_score").

(** The roles of [T] alternate, starting with the user. *)
Definition alternating (T : list Message) : Prop :=
  forall (i : nat) (msg : Message),
    T !! i = Some msg ->
    msg !! "role" = Some (if Nat.even i then "user" else "assistant").

(** The call [c] raised [e]: what the last call of a failed [run] did.
    The reranking call never counts, its exceptions are handled. *)
Definition raised_by (self : Collaborators) (c : Call) (e : PyExc) : Prop :=
  match c with
  | CallExpansion query => expansion_chain self query = Raise e
  | CallRetriever expanded_query => retriever self expanded_query = Raise e
  | CallRerank _ _ _ => False
  | CallRag context question chat_history =>
      rag_chain self context question chat_history = Raise e
  | CallHallucination context answer => hallucination_chain self context answer = Raise e
  end.

End Notions.

(** ** More sample inputs *)

Module MoreSamples.
Import Samples.

(** Two candidates are retrieved and the reranker puts the second first,
    naming the first by its position counted from the end. *)
Definition rerank_swaps : Collaborators :=
  {| expansion_chain := fun q => Ok ("expanded: " ++ q);
     retriever := fun _ => Ok [doc "d1"; doc "d2"];
     cohere_rerank := fun _ _ _ =>
       Ok [ {| index := 1; relevance_score := "0.9" |};
            {| index := -2; relevance_score := "0.4" |} ];
     rag_chain := fun _ _ _ => Ok "Draft answer.";
     hallucination_chain := fun _ _ => Ok "GROUNDED" |}.

(** The retriever finds nothing. *)
Definition no_hits : Collaborators :=
  {| expansion_chain := fun q => Ok ("expanded: " ++ q);
     retriever := fun _ => Ok [];
     cohere_rerank := fun _ _ _ => Raise (CollaboratorError "not reached");
     rag_chain := fun _ _ _ => Raise (CollaboratorError "not reached");
     hallucination_chain := fun _ _ => Raise (CollaboratorError "not reached") |}.

(** The answer model is down. *)
Definition rag_down : Collaborators :=
  {| expansion_chain := fun q => Ok ("expanded: " ++ q);
     retriever := fun _ => Ok [doc "d1"; doc "d2"];
     cohere_rerank := fun _ _ _ => Raise (CollaboratorError "rerank down");
     rag_chain := fun _ _ _ => Raise (CollaboratorError "rag down");
     hallucination_chain := fun _ _ => Ok "GROUNDED" |}.

End MoreSamples.

(** * Properties *)

(** ** Text primitives *)

Module PyStrFacts.
Import PyStr.

Lemma startswith_spec (s p : string) :
  startswith s p = true <-> exists post, s = p ++ post.
Proof.
  revert s. induction p as [|a p IH]; intros s; simpl.
  - split; [intros _; exists s; reflexivity | reflexivity].
  - destruct s as [|b s].
    + split; [discriminate | intros [post H]; discriminate].
    + destruct (Ascii.eqb_spec a b) as [->|Hne].
      * rewrite IH. split; intros [post H]; exists post.
        -- now rewrite H.
        -- now inversion H.
      * split; [discriminate | intros [post H]; inversion H; congruence].
Qed.

Lemma startswith_app (p post : string) : startswith (p ++ post) p = true.
Proof. apply startswith_spec. now exists post. Qed.

Lemma contains_spec (sub s : string) :
  contains sub s = true <-> Substring sub s.
Proof.
  induction s as [|c s IH].
  - simpl. destruct (startswith "" sub) eqn:E.
    + split; [intros _ | reflexivity].
      apply startswith_spec in E as [post E]. exists "", post. exact E.
    + split; [discriminate |]. intros (pre & post & H).
      destruct pre; [|discriminate]. simpl in H.
      assert (startswith "" sub = true) by (apply startswith_spec; eauto).
      congruence.
  - cbn [contains]. destruct (startswith (String c s) sub) eqn:E.
    + split; [intros _ | reflexivity].
      apply startswith_spec in E as [post E]. exists "", post. exact E.
    + rewrite IH. split.
      * intros (pre & post & ->). now exists (String c pre), post.
      * intros (pre & post & H). destruct pre as [|c' pre].
        -- simpl in H.
           assert (startswith (String c s) sub = true)
             by (apply startswith_spec; eauto).
           congruence.
        -- inversion H. now exists pre, post.
Qed.

Lemma contains_false_spec (sub s : string) :
  contains sub s = false <-> ~ Substring sub s.
Proof.
  rewrite <- contains_spec. destruct (contains sub s); split; congruence.
Qed.

Lemma append_nil_l (a : string) : "" ++ a = a.
Proof. reflexivity. Qed.

Lemma append_cons (x : ascii) (a b : string) : String x a ++ b = String x (a ++ b).
Proof. reflexivity. Qed.

Lemma append_assoc (a b c : string) : (a ++ b) ++ c = a ++ b ++ c.
Proof.
  induction a as [|x a IH]; [reflexivity|].
  rewrite !append_cons. now rewrite IH.
Qed.

Lemma append_nil_r (a : string) : a ++ "" = a.
Proof.
  induction a as [|x a IH]; [reflexivity|].
  rewrite append_cons. now rewrite IH.
Qed.

Lemma contains_suffix (d a : string) : contains d (a ++ d) = true.
Proof. apply contains_spec. exists a, "". now rewrite append_nil_r. Qed.

Lemma contains_app_l (d a b : string) :
  contains d a = true -> contains d (a ++ b) = true.
Proof.
  rewrite !contains_spec. intros (pre & post & ->).
  exists pre, (post ++ b). now rewrite !append_assoc.
Qed.

End PyStrFacts.

(** ** The keyword classifiers *)

Module PromptsFacts.
Import PyStr PyStrFacts Prompts.

Lemma existsb_contains_spec (kws : list string) (s : string) :
  existsb (fun k => contains k s) kws = true <->
  exists k, In k kws /\ Substring k s.
Proof.
  rewrite existsb_exists. split; intros (k & Hin & H); exists k; split; auto;
    now apply contains_spec.
Qed.

Lemma is_off_topic_unfold (query : string) :
  is_off_topic query =
  (negb (existsb (fun t => contains t (lower query)) on_topic_terms)
   && existsb (fun k => contains k (lower query)) off_topic_keywords)%bool.
Proof.
  unfold is_off_topic.
  now destruct (existsb (fun t => contains t (lower query)) on_topic_terms).
Qed.

(** C6. [is_off_topic query] holds exactly when the lower-cased query
    contains none of the on-topic terms and at least one of the off-topic
    keywords; so an on-topic term anywhere forces [false].  The two
    examples of the specification evaluate as stated. *)
Theorem is_off_topic_iff :
  (forall query : string,
      is_off_topic query = true <->
      (forall t, In t on_topic_terms -> ~ Substring t (lower query)) /\
      (exists k, In k off_topic_keywords /\ Substring k (lower query)))
  /\ (forall query : string,
      (exists t, In t on_topic_terms /\ Substring t (lower query)) ->
      is_off_topic query = false)
  /\ is_off_topic "What's the weather?" = true
  /\ is_off_topic "Tell me about CURT's car" = false.
Proof.
  split; [|split; [|split; reflexivity]].
  - intros query. rewrite is_off_topic_unfold, andb_true_iff, negb_true_iff.
    rewrite existsb_contains_spec.
    rewrite <- not_true_iff_false, existsb_contains_spec.
    split; intros [Hon Hoff]; split; auto.
    + intros t Hin Hsub. apply Hon. now exists t.
    + intros (t & Hin & Hsub). now apply (Hon t).
  - intros query Hon. rewrite is_off_topic_unfold.
    apply existsb_contains_spec in Hon. now rewrite Hon.
Qed.

(** C9. The on-topic test is an unanchored substring test: whenever the
    lower-cased query has an on-topic term (such as "car") at any offset,
    also inside a longer word, [is_off_topic] is [false], whatever
    off-topic keywords the query has. *)
Theorem is_off_topic_on_topic_substring (query t pre post : string) :
  In t on_topic_terms ->
  lower query = pre ++ t ++ post ->
  is_off_topic query = false.
Proof.
  intros Hin Hq. rewrite is_off_topic_unfold.
  assert (existsb (fun t => contains t (lower query)) on_topic_terms = true) as ->.
  { apply existsb_contains_spec. exists t. split; [exact Hin|]. now exists pre, post. }
  reflexivity.
Qed.

Lemma is_off_topic_on_topic_substring_witness :
  In "car" on_topic_terms
  /\ lower "Weather at the Carnival" = "weather at the " ++ "car" ++ "nival"
  /\ is_off_topic "Weather at the Carnival" = false.
Proof.
  split; [simpl; tauto|]. split; [reflexivity|].
  apply (is_off_topic_on_topic_substring
           "Weather at the Carnival" "car" "weather at the " "nival").
  - simpl; tauto.
  - reflexivity.
Defined.

Example is_off_topic_scary_movie : is_off_topic "a scary movie" = false.
Proof. reflexivity. Qed.

Example is_off_topic_movie : is_off_topic "a funny movie" = true.
Proof. reflexivity. Qed.

Example is_greeting_examples :
  is_greeting "Hello" = true /\ is_greeting "hello there" = true
  /\ is_greeting "hellooo" = false /\ is_greeting "  HI  " = true
  /\ is_greeting "hi" = true.
Proof. repeat split; reflexivity. Qed.

End PromptsFacts.

(** ** The memory window *)

Module MemoryFacts.
Import PyList MemoryManager.

Lemma slice_from_neg {A} (m : Z) (l : list A) :
  0 < m -> slice_from (- m) l = drop (length l - Z.to_nat m) l.
Proof.
  intros Hm. unfold slice_from.
  destruct (Z.ltb_spec (- m) 0) as [_|]; [|lia].
  f_equal. lia.
Qed.

Lemma get_recent_history_drop (self : t) (T : list Message) :
  1 <= window_size self ->
  get_recent_history self T
  = drop (length T - Z.to_nat (2 * window_size self)) T.
Proof.
  intros HN. unfold get_recent_history. destruct T as [|m T]; [reflexivity|].
  rewrite slice_from_neg by lia. do 2 f_equal. lia.
Qed.

(** What the slice [full_history[-2 N:]] yields for a window of [N >= 1]
    pairs: the last [min (len T) (2 N)] messages of [T] in their order;
    that number is even exactly when [len T] is even or [len T >= 2 N]. *)
Theorem get_recent_history_window (self : t) (T : list Message) :
  1 <= window_size self ->
  let k := Nat.min (length T) (Z.to_nat (2 * window_size self)) in
  get_recent_history self T = drop (length T - k) T
  /\ (exists older, T = (older ++ get_recent_history self T)%list)
  /\ length (get_recent_history self T) = k
  /\ (Nat.Even (length (get_recent_history self T)) <->
      Nat.Even (length T) \/ 2 * window_size self <= Z.of_nat (length T)).
Proof.
  intros HN k.
  assert (Hdrop : get_recent_history self T = drop (length T - k) T).
  { rewrite get_recent_history_drop by exact HN. f_equal. unfold k. lia. }
  assert (Hlen : length (get_recent_history self T) = k).
  { rewrite Hdrop, length_drop. unfold k. lia. }
  split; [exact Hdrop|]. split; [|split; [exact Hlen|]].
  - exists (take (length T - k) T). rewrite Hdrop. symmetry. apply take_drop.
  - rewrite Hlen.
    assert (Heven2 : Nat.Even (Z.to_nat (2 * window_size self))).
    { exists (Z.to_nat (window_size self)). lia. }
    destruct (Z.le_gt_cases (2 * window_size self) (Z.of_nat (length T))) as [Hge|Hlt].
    + replace k with (Z.to_nat (2 * window_size self)) by (unfold k; lia).
      split; [intros _; right; exact Hge | intros _; exact Heven2].
    + replace k with (length T) by (unfold k; lia).
      split; [intros H; left; exact H | intros [H|H]; [exact H | lia]].
Qed.

Lemma get_recent_history_window_witness :
  1 <= window_size {| window_size := 1 |}
  /\ get_recent_history {| window_size := 1 |}
       [user_msg "a"; assistant_msg "b"; user_msg "c"]
     = [assistant_msg "b"; user_msg "c"].
Proof.
  split; [simpl; lia|].
  exact (proj1 (get_recent_history_window {| window_size := 1 |}
                  [user_msg "a"; assistant_msg "b"; user_msg "c"]
                  ltac:(simpl; lia))).
Defined.

(** C1.  The window is to hold complete pairs, so an even number of
    messages; the code misses this on transcripts of odd length: with the
    default window of 5 pairs a transcript of one user message comes back
    whole, a lone user message, and its length 1 is not even. *)
Lemma get_recent_history_odd_length :
  get_recent_history {| window_size := 5 |} [user_msg "hi"] = [user_msg "hi"]
  /\ length (get_recent_history {| window_size := 5 |} [user_msg "hi"]) = 1%nat
  /\ ~ Nat.Even (length (get_recent_history {| window_size := 5 |} [user_msg "hi"])).
Proof.
  split; [reflexivity|]. split; [reflexivity|].
  intros [h Hh]. simpl in Hh. lia.
Qed.

(** A transcript of three messages ending in the pending user turn is cut
    by a window of one pair to its last two, which begin with an assistant
    message. *)
Remark get_recent_history_starts_mid_pair :
  get_recent_history {| window_size := 1 |}
    [user_msg "1"; assistant_msg "2"; user_msg "3"]
  = [assistant_msg "2"; user_msg "3"].
Proof. reflexivity. Qed.

(** With [window_size = 0] the slice [full_history[-0:]] is the whole list. *)
Remark get_recent_history_zero_window (T : list Message) :
  get_recent_history {| window_size := 0 |} T = T.
Proof. destruct T; reflexivity. Qed.

End MemoryFacts.

(** ** Chat history and citations *)

Module CiteFacts.
Import PyStr PyStrFacts PyList Cite Samples.

Lemma format_chat_history_loop_omap (messages : list Message) (formatted : list BaseMessage) :
  format_chat_history_loop messages formatted
  = (formatted ++ omap message_object messages)%list.
Proof.
  revert formatted. induction messages as [|msg rest IH]; intros formatted.
  - simpl. now rewrite app_nil_r.
  - cbn [format_chat_history_loop omap list_omap]. unfold message_object.
    destruct (String.eqb (default "user" (msg !! "role")) "user").
    + rewrite IH, <- app_assoc. reflexivity.
    + destruct (String.eqb (default "user" (msg !! "role")) "assistant").
      * rewrite IH, <- app_assoc. reflexivity.
      * apply IH.
Qed.

Lemma format_chat_history_omap (messages : list Message) :
  format_chat_history messages = omap message_object messages.
Proof. unfold format_chat_history. now rewrite format_chat_history_loop_omap. Qed.

Lemma omap_length_le {A B} (f : A -> option B) (l : list A) :
  (length (omap f l) <= length l)%nat.
Proof.
  induction l as [|x l IH]; [reflexivity|].
  cbn [omap list_omap length]. destruct (f x); cbn [length]; lia.
Qed.

(** C10. [format_chat_history] emits, message by message, what
    [message_object] yields.  A message without a ['role'] key counts as a
    user message and is emitted as a [HumanMessage]; a message is dropped
    exactly when it has an explicit role that is neither ['user'] nor
    ['assistant']; the output is never longer than the input. *)
Theorem format_chat_history_default_role :
  (forall messages : list Message,
      format_chat_history messages = omap message_object messages)
  /\ (forall msg : Message,
      msg !! "role" = None ->
      message_object msg = Some (HumanMessage (default "" (msg !! "content"))))
  /\ (forall (messages : list Message) (msg : Message),
      msg ∈ messages -> msg !! "role" = None ->
      HumanMessage (default "" (msg !! "content")) ∈ format_chat_history messages)
  /\ (forall msg : Message,
      message_object msg = None <->
      exists role, msg !! "role" = Some role /\ role <> "user" /\ role <> "assistant")
  /\ (forall messages : list Message,
      (length (format_chat_history messages) <= length messages)%nat).
Proof.
  assert (Hdef : forall msg : Message, msg !! "role" = None ->
            message_object msg = Some (HumanMessage (default "" (msg !! "content")))).
  { intros msg Hrole. unfold message_object. rewrite Hrole. reflexivity. }
  split; [exact format_chat_history_omap|]. split; [exact Hdef|].
  split; [|split].
  - intros messages msg Hin Hrole. rewrite format_chat_history_omap.
    apply list_elem_of_omap. exists msg. split; [exact Hin | now apply Hdef].
  - intros msg. unfold message_object.
    destruct (msg !! "role") as [role|] eqn:Hrole; simpl.
    + destruct (String.eqb_spec role "user") as [->|Hu].
      { split; [discriminate | intros (r & Hr & Hne & _); congruence]. }
      destruct (String.eqb_spec role "assistant") as [->|Ha].
      { split; [discriminate | intros (r & Hr & _ & Hne); congruence]. }
      split; [intros _; exists role; auto | reflexivity].
    + split; [discriminate | intros (r & Hr & _); discriminate].
  - intros messages. rewrite format_chat_history_omap. apply omap_length_le.
Qed.

Lemma format_chat_history_default_role_witness :
  (<["content" := "no role here"]> ∅ : Message) !! "role" = None
  /\ format_chat_history
       [<["content" := "no role here"]> ∅;
        <["role" := "system"]> (<["content" := "dropped"]> ∅);
        assistant_msg "kept"]
     = [HumanMessage "no role here"; AIMessage "kept"]
  /\ message_object (<["content" := "no role here"]> ∅)
     = Some (HumanMessage "no role here").
Proof.
  split; [reflexivity|]. split; [reflexivity|].
  exact (proj1 (proj2 format_chat_history_default_role)
           (<["content" := "no role here"]> ∅) eq_refl).
Defined.

(** The output of the loop of [format_sources] is its input text followed
    by the rendered citations. *)
Lemma format_sources_loop_render (ics : list (nat * Chunk)) (sources : string)
      (seen : gset MetaVal) :
  fst (format_sources_loop ics sources seen)
  = sources ++ render_citations (citations_loop ics seen).
Proof.
  revert sources seen. induction ics as [|[i chunk] rest IH]; intros sources seen.
  - simpl. now rewrite append_nil_r.
  - cbn [format_sources_loop citations_loop].
    destruct (decide (chunk_source chunk ∈ seen)).
    + apply IH.
    + rewrite IH. cbn [render_citations]. now rewrite append_assoc.
Qed.

Lemma format_sources_render (chunks : list Chunk) :
  chunks <> [] ->
  format_sources chunks = sources_header ++ render_citations (citations chunks).
Proof.
  intros Hne. destruct chunks as [|c chunks]; [congruence|].
  unfold format_sources, citations. apply format_sources_loop_render.
Qed.

Lemma enumerate_lookup {A} (l : list A) (k i : nat) (x : A) :
  (i, x) ∈ enumerate k l <-> (k <= i)%nat /\ l !! (i - k)%nat = Some x.
Proof.
  revert k. induction l as [|y l IH]; intros k; simpl.
  - rewrite elem_of_nil. split; [tauto | intros [_ H]; discriminate].
  - rewrite elem_of_cons, IH. split.
    + intros [Heq | [Hle Hl]].
      * inversion Heq; subst. rewrite Nat.sub_diag. split; [lia | reflexivity].
      * split; [lia|]. replace (i - k)%nat with (S (i - S k)) by lia. exact Hl.
    + intros [Hle Hl]. destruct (decide (i = k)) as [->|Hne].
      * rewrite Nat.sub_diag in Hl. simpl in Hl. left. congruence.
      * right. split; [lia|].
        replace (i - k)%nat with (S (i - S k)) in Hl by lia. exact Hl.
Qed.

(** Every citation carries the number and the source of a chunk not seen
    before, and no earlier chunk of the loop has that source. *)
Lemma citations_loop_first (chunks : list Chunk) (k : nat) (seen : gset MetaVal)
      (i : nat) (s : MetaVal) :
  (i, s) ∈ citations_loop (enumerate k chunks) seen ->
  (s ∉ seen) /\ (k <= i)%nat
  /\ (exists c, chunks !! (i - k)%nat = Some c /\ chunk_source c = s)
  /\ (forall j c, (j < i - k)%nat -> chunks !! j = Some c -> chunk_source c <> s).
Proof.
  revert k seen. induction chunks as [|c0 rest IH]; intros k seen; simpl.
  - intros H. now apply elem_of_nil in H.
  - destruct (decide (chunk_source c0 ∈ seen)) as [Hseen|Hnew].
    + intros H. apply IH in H as (Hs & Hle & (c & Hc & Hsrc) & Hfirst).
      split; [exact Hs|]. split; [lia|]. split.
      * exists c. replace (i - k)%nat with (S (i - S k)) by lia. auto.
      * intros j c' Hj Hl. destruct j as [|j]; simpl in Hl.
        -- inversion Hl; subst. congruence.
        -- apply (Hfirst j c'); [lia | exact Hl].
    + intros H. apply elem_of_cons in H as [Heq|H].
      * inversion Heq; subst. rewrite Nat.sub_diag.
        split; [exact Hnew|]. split; [lia|]. split.
        -- exists c0. auto.
        -- intros j c' Hj. lia.
      * apply IH in H as (Hs & Hle & (c & Hc & Hsrc) & Hfirst).
        apply not_elem_of_union in Hs as [Hs0 Hs].
        rewrite elem_of_singleton in Hs0.
        split; [exact Hs|]. split; [lia|]. split.
        -- exists c. replace (i - k)%nat with (S (i - S k)) by lia. auto.
        -- intros j c' Hj Hl. destruct j as [|j]; simpl in Hl.
           ++ inversion Hl; subst. congruence.
           ++ apply (Hfirst j c'); [lia | exact Hl].
Qed.

(** Every source of a chunk is cited, unless it was seen before the loop. *)
Lemma citations_loop_complete (ics : list (nat * Chunk)) (seen : gset MetaVal)
      (i : nat) (c : Chunk) :
  (i, c) ∈ ics -> chunk_source c ∉ seen ->
  chunk_source c ∈ snd <$> citations_loop ics seen.
Proof.
  revert seen. induction ics as [|[i0 c0] rest IH]; intros seen Hin Hns.
  - now apply elem_of_nil in Hin.
  - cbn [citations_loop].
    destruct (decide (chunk_source c0 ∈ seen)) as [Hseen|Hnew].
    + apply elem_of_cons in Hin as [Heq|Hin].
      * inversion Heq; subst. contradiction.
      * now apply IH.
    + rewrite fmap_cons. cbn [snd].
      destruct (decide (chunk_source c = chunk_source c0)) as [->|Hne].
      * apply elem_of_cons. now left.
      * apply elem_of_cons. right.
        apply elem_of_cons in Hin as [Heq|Hin].
        -- inversion Heq; subst. contradiction.
        -- apply IH; [exact Hin|].
           apply not_elem_of_union. split; [|exact Hns].
           now apply not_elem_of_singleton.
Qed.

Lemma citations_loop_fresh (ics : list (nat * Chunk)) (seen : gset MetaVal) (s : MetaVal) :
  s ∈ snd <$> citations_loop ics seen -> s ∉ seen.
Proof.
  revert seen. induction ics as [|[i0 c0] rest IH]; intros seen; cbn [citations_loop].
  - intros H. now apply elem_of_nil in H.
  - destruct (decide (chunk_source c0 ∈ seen)) as [Hseen|Hnew].
    + apply IH.
    + rewrite fmap_cons. cbn [snd].
      intros H. apply elem_of_cons in H as [->|H]; [exact Hnew|].
      pose proof (IH _ H) as Hfresh.
      now apply not_elem_of_union in Hfresh as [_ Hfresh].
Qed.

Lemma citations_loop_NoDup (ics : list (nat * Chunk)) (seen : gset MetaVal) :
  NoDup (snd <$> citations_loop ics seen).
Proof.
  revert seen. induction ics as [|[i0 c0] rest IH]; intros seen; cbn [citations_loop].
  - constructor.
  - destruct (decide (chunk_source c0 ∈ seen)) as [Hseen|Hnew].
    + apply IH.
    + rewrite fmap_cons. cbn [snd]. apply NoDup_cons. split; [|apply IH].
      intros H. apply citations_loop_fresh in H. apply H.
      apply elem_of_union_l. now apply elem_of_singleton.
Qed.

(** The citation numbers increase along the output. *)
Lemma citations_loop_sorted (chunks : list Chunk) (k : nat) (seen : gset MetaVal) :
  StronglySorted lt (fst <$> citations_loop (enumerate k chunks) seen).
Proof.
  revert k seen. induction chunks as [|c0 rest IH]; intros k seen; simpl.
  - constructor.
  - destruct (decide (chunk_source c0 ∈ seen)) as [Hseen|Hnew].
    + apply IH.
    + rewrite fmap_cons. cbn [fst]. constructor; [apply IH|].
      apply Forall_forall. intros i Hi.
      apply list_elem_of_fmap in Hi as ([i' s] & -> & Hin).
      apply citations_loop_first in Hin as (_ & Hle & _). simpl. lia.
Qed.

(** C7. [format_sources] of no chunks is the empty string.  For a
    non-empty list the output is the header followed by one line per
    citation, and the citations list every source of the chunks exactly
    once: no source twice, every source of a chunk present, in the order of
    the chunks, each under the number of the first chunk that has it. *)
Theorem format_sources_dedup :
  format_sources [] = ""
  /\ (forall chunks : list Chunk,
      chunks <> [] ->
      format_sources chunks = sources_header ++ render_citations (citations chunks)
      /\ NoDup (snd <$> citations chunks)
      /\ (forall s, s ∈ snd <$> citations chunks <->
                    exists c, c ∈ chunks /\ chunk_source c = s)
      /\ StronglySorted lt (fst <$> citations chunks)
      /\ (forall i s, (i, s) ∈ citations chunks ->
            forall j c, chunks !! j = Some c -> chunk_source c = s ->
                        (i <= j + 1)%nat)).
Proof.
  split; [reflexivity|]. intros chunks Hne.
  split; [now apply format_sources_render|].
  split; [apply citations_loop_NoDup|].
  split; [|split; [apply citations_loop_sorted|]].
  - intros s. split.
    + intros Hs. apply list_elem_of_fmap in Hs as ([i s'] & -> & Hin).
      apply citations_loop_first in Hin as (_ & _ & (c & Hc & Hsrc) & _).
      exists c. split; [|exact Hsrc]. apply list_elem_of_lookup. eauto.
    + intros (c & Hin & <-).
      apply list_elem_of_lookup in Hin as [j Hj].
      apply (citations_loop_complete _ _ (1 + j)%nat); [|apply not_elem_of_empty].
      apply enumerate_lookup. split; [lia|].
      now replace (1 + j - 1)%nat with j by lia.
  - intros i s Hin j c Hj Hsrc.
    apply citations_loop_first in Hin as (_ & Hle & _ & Hfirst).
    destruct (Nat.le_gt_cases i (j + 1)) as [|Hgt]; [assumption|].
    exfalso. apply (Hfirst j c); [lia | exact Hj | exact Hsrc].
Qed.

Lemma format_sources_dedup_witness :
  [chunk_A; chunk_A] <> []
  /\ format_sources [chunk_A; chunk_A] = sources_header ++ "1. A" ++ LF.
Proof.
  split; [discriminate|].
  exact (proj1 (proj2 format_sources_dedup [chunk_A; chunk_A] ltac:(discriminate))).
Defined.

Lemma render_citations_line (cs : list (nat * MetaVal)) (i : nat) (s : MetaVal) :
  (i, s) ∈ cs ->
  exists before after, render_citations cs = before ++ source_line i s ++ after.
Proof.
  induction cs as [|[i0 s0] rest IH]; intros Hin.
  - now apply elem_of_nil in Hin.
  - cbn [render_citations]. apply elem_of_cons in Hin as [Heq|Hin].
    + injection Heq as -> ->. now exists "", (render_citations rest).
    + destruct (IH Hin) as (before & after & ->).
      exists (source_line i0 s0 ++ before), after. now rewrite append_assoc.
Qed.

(** C8.  The text of [format_sources] is the header followed by the
    lines of the citations, and each line written carries the 1-based
    position of its chunk in the input list, not its rank among the lines
    written: the line of a citation [(i, s)] is [f"{i}. {s}\n"], it occurs
    in the text, and the chunk at position [i] of the input has source [s]. *)
Theorem format_sources_numbering (chunks : list Chunk) (i : nat) (s : MetaVal) :
  (i, s) ∈ citations chunks ->
  format_sources chunks = sources_header ++ render_citations (citations chunks)
  /\ (exists before after,
         format_sources chunks = before ++ (pretty i ++ ". " ++ py_str s ++ LF) ++ after)
  /\ (1 <= i)%nat
  /\ exists c, chunks !! (i - 1)%nat = Some c /\ chunk_source c = s.
Proof.
  intros Hin.
  assert (Hne : chunks <> []).
  { intros ->. now apply elem_of_nil in Hin. }
  pose proof (format_sources_render chunks Hne) as Htext.
  split; [exact Htext|]. split.
  - destruct (render_citations_line _ _ _ Hin) as (before & after & Hline).
    exists (sources_header ++ before), after.
    rewrite Htext, Hline. now rewrite append_assoc.
  - apply citations_loop_first in Hin as (_ & Hle & Hc & _). auto.
Qed.

(** The chunks with sources A, A, B give the lines numbered 1 and 3. *)
Example format_sources_A_A_B :
  citations [chunk_A; chunk_A; chunk_B] = [(1%nat, MStr "A"); (3%nat, MStr "B")]
  /\ format_sources [chunk_A; chunk_A; chunk_B]
     = LF ++ LF ++ "**Sources:**" ++ LF ++ "1. A" ++ LF ++ "3. B" ++ LF.
Proof. split; vm_compute; reflexivity. Qed.

Lemma format_sources_numbering_witness :
  (3%nat, MStr "B") ∈ citations [chunk_A; chunk_A; chunk_B]
  /\ format_sources [chunk_A; chunk_A; chunk_B]
     = sources_header ++ render_citations (citations [chunk_A; chunk_A; chunk_B])
  /\ (exists before after,
         format_sources [chunk_A; chunk_A; chunk_B]
         = before ++ (pretty 3%nat ++ ". " ++ py_str (MStr "B") ++ LF) ++ after)
  /\ (1 <= 3)%nat
  /\ exists c, [chunk_A; chunk_A; chunk_B] !! (3 - 1)%nat = Some c
               /\ chunk_source c = MStr "B".
Proof.
  assert (Hin : (3%nat, MStr "B") ∈ citations [chunk_A; chunk_A; chunk_B]).
  { vm_compute. apply list_elem_of_further, list_elem_of_here. }
  split; [exact Hin|].
  exact (format_sources_numbering [chunk_A; chunk_A; chunk_B] 3 (MStr "B") Hin).
Defined.

End CiteFacts.

(** ** The pipeline *)

Module PipelineFacts.
Import PyStr PyStrFacts PyList Prompts Cite Pipeline Samples.

Lemma slice_to_take {A} (k : nat) (l : list A) :
  slice_to (Z.of_nat k) l = take k l.
Proof.
  unfold slice_to. destruct (Z.ltb_spec (Z.of_nat k) 0) as [|_]; [lia|].
  destruct (Nat.le_gt_cases k (length l)) as [Hle|Hgt].
  - f_equal. lia.
  - replace (Z.to_nat (Z.min (Z.of_nat k) (Z.of_nat (length l)))) with (length l) by lia.
    rewrite !take_ge; [reflexivity | lia | lia].
Qed.

(** [_rerank_with_cohere] on a non-empty list never raises and makes the
    one reranking call. *)
Lemma rerank_returns (self : Collaborators) (query : string)
      (documents : list Document) (top_n : Z) :
  documents <> [] ->
  exists valid_docs,
    _rerank_with_cohere self query documents top_n
    = (Ok valid_docs, [CallRerank query (map page_content documents) top_n]).
Proof.
  intros Hne. destruct documents as [|d ds]; [congruence|].
  unfold _rerank_with_cohere, call.
  destruct (cohere_rerank self query (map page_content (d :: ds)) top_n) as [results|e].
  - destruct (rerank_loop results (d :: ds) []) as [documents' [refs|e]]; eauto.
  - eauto.
Qed.

(** When the reranking call raises, the result is [documents[:top_n]]. *)
Lemma rerank_fallback (self : Collaborators) (query : string)
      (documents : list Document) (top_n : Z) (e : PyExc) :
  documents <> [] ->
  cohere_rerank self query (map page_content documents) top_n = Raise e ->
  _rerank_with_cohere self query documents top_n
  = (Ok (slice_to top_n documents),
     [CallRerank query (map page_content documents) top_n]).
Proof.
  intros Hne Hraise. destruct documents as [|d ds]; [congruence|].
  unfold _rerank_with_cohere, call. now rewrite Hraise.
Qed.

(** [run] ends in one of the outcomes of [RunOutcome]. *)
Lemma run_outcome (self : Collaborators) (query : string) (chat_history : list Message) :
  RunOutcome self query chat_history (run self query chat_history).
Proof.
  unfold run.
  destruct (is_greeting query) eqn:Hg; [now constructor|].
  destruct (is_off_topic query) eqn:Ho; [now constructor|].
  unfold bind at 1, call at 1.
  destruct (expansion_chain self query) as [expanded_query|e] eqn:He;
    [|now constructor].
  unfold bind at 1, call at 1.
  destruct (retriever self expanded_query) as [raw_docs|e] eqn:Hr;
    [|now apply OutRetrieverRaises].
  destruct raw_docs as [|d ds]; [now apply OutNoDocs|].
  destruct (rerank_returns self query (d :: ds) 5 ltac:(discriminate))
    as [valid_docs Hrr].
  unfold bind at 1. rewrite Hrr.
  unfold bind at 1, call at 1.
  destruct (rag_chain self (join (LF ++ LF) (map page_content valid_docs)) query
                      (format_chat_history chat_history)) as [answer|e] eqn:Hrag.
  2:{ eapply OutRagRaises; eauto; discriminate. }
  unfold bind, call, ret.
  destruct (hallucination_chain self (join (LF ++ LF) (map page_content valid_docs))
                                answer) as [check_result|e] eqn:Hver.
  2:{ eapply OutVerifierRaises; eauto; discriminate. }
  eapply OutSuccess; eauto; discriminate.
Qed.

(** C5. On a greeting [run] returns the canned greeting with no sources
    and status [greeting], and makes no external call; the outcome is the
    same whatever the collaborators are. *)
Theorem run_greeting_short_circuit (self : Collaborators) (query : string)
        (chat_history : list Message) :
  is_greeting query = true ->
  run self query chat_history
  = (Ok (list_to_map [("answer", VStr GREETING_RESPONSE);
                      ("sources", VDocs []);
                      ("status", VStr "greeting")]), [])
  /\ (forall other : Collaborators,
         run other query chat_history = run self query chat_history).
Proof.
  intros Hg. unfold run. rewrite Hg. split; reflexivity.
Qed.

Lemma run_greeting_short_circuit_witness :
  is_greeting "hi" = true
  /\ run offline "hi" []
     = (Ok (list_to_map [("answer", VStr GREETING_RESPONSE);
                         ("sources", VDocs []);
                         ("status", VStr "greeting")]), []).
Proof.
  split; [reflexivity|].
  exact (proj1 (run_greeting_short_circuit offline "hi" [] eq_refl)).
Defined.

Local Ltac lookup_literal := vm_compute; reflexivity.

(** C3, as the code has it.  Whenever [run] returns, the result holds
    [answer], [sources] and [status], the status being one of the four; a
    [success] result also holds [raw_answer] and [expanded_query]; the
    greeting, off-topic and no-docs results hold the three keys only, with
    no sources. *)
Theorem run_result_fields (self : Collaborators) (query : string)
        (chat_history : list Message) (res : gmap string PyVal) (log : list Call) :
  run self query chat_history = (Ok res, log) ->
  exists answer sources status,
    res !! "answer" = Some (VStr answer)
    /\ res !! "sources" = Some (VDocs sources)
    /\ res !! "status" = Some (VStr status)
    /\ In status ["greeting"; "off_topic"; "no_docs"; "success"]
    /\ (status = "success" ->
        exists raw_answer expanded_query,
          res !! "raw_answer" = Some (VStr raw_answer)
          /\ res !! "expanded_query" = Some (VStr expanded_query))
    /\ (status <> "success" ->
        res !! "raw_answer" = None /\ res !! "expanded_query" = None
        /\ sources = [] /\ size res = 3%nat).
Proof.
  intros Hrun. pose proof (run_outcome self query chat_history) as Hout.
  rewrite Hrun in Hout. inversion Hout; subst; clear Hout.
  - exists GREETING_RESPONSE, [], "greeting".
    repeat split; try lookup_literal; simpl; auto; discriminate.
  - exists OFF_TOPIC_RESPONSE, [], "off_topic".
    repeat split; try lookup_literal; simpl; auto; discriminate.
  - exists NO_CONTEXT_RESPONSE, [], "no_docs".
    repeat split; try lookup_literal; simpl; auto; discriminate.
  - eexists _, valid_docs, "success".
    split; [reflexivity|]. split; [reflexivity|]. split; [reflexivity|].
    split; [simpl; auto|]. split; [|congruence].
    intros _. eexists _, expanded_query. split; reflexivity.
Qed.

Lemma run_result_fields_witness :
  let res : gmap string PyVal :=
    list_to_map [("answer", VStr OFF_TOPIC_RESPONSE);
                 ("sources", VDocs []);
                 ("status", VStr "off_topic")] in
  run offline "best pizza recipe" [] = (Ok res, [])
  /\ exists answer sources status,
      res !! "answer" = Some (VStr answer)
      /\ res !! "sources" = Some (VDocs sources)
      /\ res !! "status" = Some (VStr status)
      /\ In status ["greeting"; "off_topic"; "no_docs"; "success"]
      /\ (status = "success" ->
          exists raw_answer expanded_query,
            res !! "raw_answer" = Some (VStr raw_answer)
            /\ res !! "expanded_query" = Some (VStr expanded_query))
      /\ (status <> "success" ->
          res !! "raw_answer" = None /\ res !! "expanded_query" = None
          /\ sources = [] /\ size res = 3%nat).
Proof.
  intros res. split; [reflexivity|].
  apply (run_result_fields offline "best pizza recipe" [] res []).
  reflexivity.
Defined.

(** C3 as stated fails: the result returned for the greeting "hi" has
    neither [raw_answer] nor [expanded_query]. *)
Lemma run_greeting_lacks_fields :
  exists res,
    run offline "hi" [] = (Ok res, [])
    /\ res !! "status" = Some (VStr "greeting")
    /\ res !! "raw_answer" = None
    /\ res !! "expanded_query" = None.
Proof.
  eexists. split; [reflexivity|]. repeat split; vm_compute; reflexivity.
Qed.

(** What the log of calls tells: a logged retrieval means that the query
    passed both classifiers and the expansion returned its argument. *)
Lemma run_retrieval_reached (self : Collaborators) (query : string)
      (chat_history : list Message) (expanded_query : string) :
  CallRetriever expanded_query ∈ snd (run self query chat_history) ->
  is_greeting query = false /\ is_off_topic query = false
  /\ expansion_chain self query = Ok expanded_query.
Proof.
  intros Hin. destruct (run_outcome self query chat_history); cbn [snd] in Hin;
    repeat (apply elem_of_cons in Hin as [Hin|Hin]; try discriminate Hin);
    try (now apply elem_of_nil in Hin);
    inversion Hin; subst; auto.
Qed.

(** C4. When retrieval has returned candidates and the reranking call
    raises, while the answer model and the verifier return, [run] returns
    with status [success] and its sources are the first five candidates in
    retrieval order. *)
Theorem rerank_failure_degrades (self : Collaborators) (query : string)
        (chat_history : list Message) (expanded_query : string)
        (raw_docs : list Document) (e : PyExc) (answer check_result : string) :
  CallRetriever expanded_query ∈ snd (run self query chat_history) ->
  retriever self expanded_query = Ok raw_docs ->
  raw_docs <> [] ->
  cohere_rerank self query (map page_content raw_docs) 5 = Raise e ->
  rag_chain self (join (LF ++ LF) (map page_content (take 5 raw_docs))) query
            (format_chat_history chat_history) = Ok answer ->
  hallucination_chain self (join (LF ++ LF) (map page_content (take 5 raw_docs)))
                      answer = Ok check_result ->
  exists res,
    fst (run self query chat_history) = Ok res
    /\ res !! "status" = Some (VStr "success")
    /\ res !! "sources" = Some (VDocs (take 5 raw_docs)).
Proof.
  intros Hlog Hret Hne Hrr Hrag Hver.
  apply run_retrieval_reached in Hlog as (Hg & Ho & Hexp).
  pose proof (rerank_fallback self query raw_docs 5 e Hne Hrr) as Hfb.
  change 5 with (Z.of_nat 5) in Hfb at 2. rewrite slice_to_take in Hfb.
  destruct (run_outcome self query chat_history);
    try congruence;
    repeat match goal with
           | H1 : expansion_chain _ _ = Ok ?a, H2 : expansion_chain _ _ = Ok ?b |- _ =>
               assert (a = b) by congruence; subst a; clear H1
           | H1 : retriever _ _ = Ok ?a, H2 : retriever _ _ = Ok ?b |- _ =>
               assert (a = b) by congruence; subst a; clear H1
           | H1 : _rerank_with_cohere _ _ _ _ = (Ok ?a, _),
             H2 : _rerank_with_cohere _ _ _ _ = (Ok ?b, _) |- _ =>
               assert (a = b) by congruence; subst a; clear H1
           end;
    try congruence.
  eexists. split; [reflexivity|]. split; reflexivity.
Qed.

Lemma rerank_failure_degrades_witness :
  exists res,
    fst (run (rerank_down "GROUNDED") "When was CURT founded?" []) = Ok res
    /\ res !! "status" = Some (VStr "success")
    /\ res !! "sources" = Some (VDocs (take 5 six_docs)).
Proof.
  apply (rerank_failure_degrades (rerank_down "GROUNDED") "When was CURT founded?" []
           "expanded: When was CURT founded?" six_docs
           (CollaboratorError "rerank down") "Draft answer." "GROUNDED").
  - vm_compute. apply list_elem_of_further, list_elem_of_here.
  - reflexivity.
  - discriminate.
  - reflexivity.
  - reflexivity.
  - reflexivity.
Defined.

(** An [IndexError] inside the loop is handled the same way, but the
    scores written before it stay on the documents that are returned. *)
Remark rerank_index_error_keeps_scores :
  fst (_rerank_with_cohere rerank_bad_index "q" [doc "d1"; doc "d2"] 5)
  = Ok [doc "d1"; set_rerank_score "0.9" (doc "d2")].
Proof. vm_compute. reflexivity. Qed.

(** C2, as the code has it.  When the verifier's response, trimmed and
    upper-cased, starts with HALLUCINATION, [run] returns; the disclaimer
    is appended to the draft before [raw_answer] is taken, so [raw_answer]
    is the draft followed by the disclaimer, and the final answer, which
    extends [raw_answer] with the citations, contains the disclaimer too. *)
Theorem run_flagged_answer (self : Collaborators) (query : string)
        (chat_history : list Message) (context draft check_result : string) :
  CallHallucination context draft ∈ snd (run self query chat_history) ->
  hallucination_chain self context draft = Ok check_result ->
  startswith (upper (strip check_result)) "HALLUCINATION" = true ->
  exists res final,
    fst (run self query chat_history) = Ok res
    /\ res !! "answer" = Some (VStr final)
    /\ contains DISCLAIMER final = true
    /\ res !! "raw_answer" = Some (VStr (draft ++ DISCLAIMER))
    /\ contains DISCLAIMER (draft ++ DISCLAIMER) = true.
Proof.
  intros Hlog Hver Hflag.
  destruct (run_outcome self query chat_history); cbn [snd] in Hlog;
    repeat (apply elem_of_cons in Hlog as [Hlog|Hlog]; try discriminate Hlog);
    try (now apply elem_of_nil in Hlog);
    inversion Hlog; subst; try congruence.
  assert (check_result0 = check_result) by congruence. subst check_result0.
  rewrite Hflag. eexists _, _. split; [reflexivity|].
  split; [reflexivity|]. split; [|split; [reflexivity | apply contains_suffix]].
  unfold enhance_response_with_sources.
  destruct (String.eqb _ ""); [apply contains_suffix|].
  apply contains_app_l, contains_suffix.
Qed.

Lemma run_flagged_answer_witness :
  exists res final,
    fst (run (rerank_down " hallucination: the date is not in the context")
             "When was CURT founded?" []) = Ok res
    /\ res !! "answer" = Some (VStr final)
    /\ contains DISCLAIMER final = true
    /\ res !! "raw_answer" = Some (VStr ("Draft answer." ++ DISCLAIMER))
    /\ contains DISCLAIMER ("Draft answer." ++ DISCLAIMER) = true.
Proof.
  apply (run_flagged_answer
           (rerank_down " hallucination: the date is not in the context")
           "When was CURT founded?" []
           (join (LF ++ LF) (map page_content (take 5 six_docs)))
           "Draft answer."
           " hallucination: the date is not in the context").
  - vm_compute. do 4 apply list_elem_of_further. apply list_elem_of_here.
  - reflexivity.
  - reflexivity.
Defined.

(** C2 as stated fails: in a flagged run the returned [raw_answer] is the
    draft followed by the disclaimer, so it contains the disclaimer. *)
Lemma run_flagged_raw_answer_has_disclaimer :
  startswith (upper (strip "HALLUCINATION: the date is not in the context"))
             "HALLUCINATION" = true
  /\ text_field "raw_answer"
       (run (rerank_down "HALLUCINATION: the date is not in the context")
            "When was CURT founded?" [])
     = Some ("Draft answer." ++ DISCLAIMER)
  /\ contains DISCLAIMER ("Draft answer." ++ DISCLAIMER) = true.
Proof.
  split; [reflexivity|]. split; [vm_compute; reflexivity | apply contains_suffix].
Qed.

End PipelineFacts.

(** ** More on the memory manager *)

Module MemoryToolsFacts.
Import PyList MemoryManager MemoryTools MemoryFacts.

(** [get_last_pair] returns nothing for fewer than two messages and the
    last two messages otherwise, whatever the window size. *)
Theorem get_last_pair_last_two (self : t) (T : list Message) :
  ((length T < 2)%nat -> get_last_pair self T = [])
  /\ (forall older a b, T = (older ++ [a; b])%list -> get_last_pair self T = [a; b])
  /\ (length (get_last_pair self T) = 0%nat \/ length (get_last_pair self T) = 2%nat).
Proof.
  unfold get_last_pair.
  destruct (Z.ltb_spec (Z.of_nat (length T)) 2) as [Hlt|Hge].
  - split; [reflexivity|]. split; [|left; reflexivity].
    intros older a b ->. rewrite length_app in Hlt. simpl in Hlt. lia.
  - change (-2) with (- (2)). rewrite slice_from_neg by lia.
    split; [lia|]. split.
    + intros older a b ->. rewrite length_app. simpl.
      replace (length older + 2 - Z.to_nat 2)%nat with (length older) by lia.
      now rewrite drop_app_length.
    + right. rewrite length_drop. lia.
Qed.

Lemma get_last_pair_last_two_witness :
  [user_msg "a"; assistant_msg "b"; user_msg "c"]
  = ([user_msg "a"] ++ [assistant_msg "b"; user_msg "c"])%list
  /\ get_last_pair {| window_size := 5 |}
       [user_msg "a"; assistant_msg "b"; user_msg "c"]
     = [assistant_msg "b"; user_msg "c"].
Proof.
  split; [reflexivity|].
  exact (proj1 (proj2 (get_last_pair_last_two {| window_size := 5 |}
                         [user_msg "a"; assistant_msg "b"; user_msg "c"]))
           [user_msg "a"] (assistant_msg "b") (user_msg "c") eq_refl).
Defined.

Lemma fold_total_chars (messages : list Message) (acc : Z) :
  fold_left (fun acc msg => acc + Z.of_nat (String.length (default "" (msg !! "content"))))
            messages acc
  = acc + total_chars messages.
Proof.
  unfold total_chars. revert acc.
  induction messages as [|m ms IH]; intros acc; simpl; [lia|].
  rewrite (IH (acc + _)), (IH (0 + _)). lia.
Qed.

Lemma total_chars_cons (m : Message) (ms : list Message) :
  total_chars (m :: ms)
  = Z.of_nat (String.length (default "" (m !! "content"))) + total_chars ms.
Proof. unfold total_chars at 1. simpl. now rewrite fold_total_chars. Qed.

Lemma total_chars_app (a b : list Message) :
  total_chars (a ++ b) = total_chars a + total_chars b.
Proof.
  induction a as [|m a IH]; [reflexivity|].
  rewrite <- app_comm_cons, !total_chars_cons, IH. lia.
Qed.

Lemma total_chars_nonneg (ms : list Message) : 0 <= total_chars ms.
Proof.
  induction ms as [|m ms IH]; [reflexivity|]. rewrite total_chars_cons. lia.
Qed.

(** The estimate of two lists put together is the sum of their estimates
    or one more, never less; a message without ['content'] adds nothing. *)
Theorem estimate_tokens_app (self : t) (a b : list Message) :
  estimate_tokens self a + estimate_tokens self b <= estimate_tokens self (a ++ b)
  /\ estimate_tokens self (a ++ b) <= estimate_tokens self a + estimate_tokens self b + 1
  /\ (forall m : Message, m !! "content" = None ->
        estimate_tokens self (a ++ [m]) = estimate_tokens self a).
Proof.
  unfold estimate_tokens. rewrite total_chars_app.
  pose proof (total_chars_nonneg a). pose proof (total_chars_nonneg b).
  split; [|split].
  - pose proof (Z.div_mod (total_chars a) 4 ltac:(lia)).
    pose proof (Z.div_mod (total_chars b) 4 ltac:(lia)).
    pose proof (Z.mod_pos_bound (total_chars a) 4 ltac:(lia)).
    pose proof (Z.mod_pos_bound (total_chars b) 4 ltac:(lia)).
    apply Z.div_le_lower_bound; lia.
  - pose proof (Z.div_mod (total_chars a) 4 ltac:(lia)).
    pose proof (Z.div_mod (total_chars b) 4 ltac:(lia)).
    pose proof (Z.mod_pos_bound (total_chars a) 4 ltac:(lia)).
    pose proof (Z.mod_pos_bound (total_chars b) 4 ltac:(lia)).
    assert ((total_chars a + total_chars b) / 4 < total_chars a / 4 + total_chars b / 4 + 2);
      [|lia].
    apply Z.div_lt_upper_bound; lia.
  - intros m Hm. rewrite total_chars_app, total_chars_cons, Hm. simpl.
    f_equal. unfold total_chars. simpl. lia.
Qed.

Lemma estimate_tokens_app_witness :
  (<["role" := "user"]> ∅ : Message) !! "content" = None
  /\ estimate_tokens {| window_size := 5 |}
       ([user_msg "abcdefgh"] ++ [<["role" := "user"]> ∅])
     = estimate_tokens {| window_size := 5 |} [user_msg "abcdefgh"].
Proof.
  split; [reflexivity|].
  exact (proj2 (proj2 (estimate_tokens_app {| window_size := 5 |}
                         [user_msg "abcdefgh"] []))
           (<["role" := "user"]> ∅) eq_refl).
Defined.

Lemma get_recent_history_is_drop (self : t) (T : list Message) :
  exists n, get_recent_history self T = drop n T.
Proof.
  unfold get_recent_history. destruct T as [|m T]; [now exists 0%nat|].
  unfold slice_from. eauto.
Qed.

Lemma estimate_tokens_drop (self : t) (n : nat) (T : list Message) :
  0 <= estimate_tokens self (drop n T) <= estimate_tokens self T.
Proof.
  unfold estimate_tokens.
  rewrite <- (take_drop n T) at 3. rewrite total_chars_app.
  pose proof (total_chars_nonneg (take n T)).
  pose proof (total_chars_nonneg (drop n T)).
  split; [apply Z.div_pos; lia | apply Z.div_le_mono; lia].
Qed.

(** The estimate of the window is never negative and never above the
    estimate of the whole transcript, for any window size. *)
Theorem estimate_tokens_window (self : t) (T : list Message) :
  0 <= estimate_tokens self (get_recent_history self T)
  /\ estimate_tokens self (get_recent_history self T) <= estimate_tokens self T.
Proof.
  destruct (get_recent_history_is_drop self T) as [n ->].
  apply estimate_tokens_drop.
Qed.

End MemoryToolsFacts.

Module MemoryStatsFacts.
Import PyList MemoryManager MemoryTools MemoryFacts MemoryToolsFacts Cite CiteFacts.

(** For a window of [N >= 1] pairs the statistics are consistent: the
    number of messages in memory is [min total (2 N)], the pair count is
    half of it rounded down and at most [N], and the token estimate of the
    window is between 0 and the estimate of the whole transcript. *)
Theorem get_stats_invariants (self : t) (T : list Message) :
  1 <= window_size self ->
  exists total mem toks pairs,
    get_stats self T !! "total_messages_in_session" = Some total
    /\ get_stats self T !! "window_size_pairs" = Some (window_size self)
    /\ get_stats self T !! "messages_in_memory" = Some mem
    /\ get_stats self T !! "estimated_memory_tokens" = Some toks
    /\ get_stats self T !! "memory_pairs" = Some pairs
    /\ total = Z.of_nat (length T)
    /\ mem = Z.min total (2 * window_size self)
    /\ 0 <= pairs <= window_size self
    /\ 2 * pairs <= mem <= 2 * pairs + 1
    /\ 0 <= toks <= estimate_tokens self T.
Proof.
  intros HN.
  exists (Z.of_nat (length T)),
         (Z.of_nat (length (get_recent_history self T))),
         (estimate_tokens self (get_recent_history self T)),
         (Z.of_nat (length (get_recent_history self T)) / 2).
  do 5 (split; [reflexivity|]). split; [reflexivity|].
  assert (Hlen : Z.of_nat (length (get_recent_history self T))
                 = Z.min (Z.of_nat (length T)) (2 * window_size self)).
  { rewrite get_recent_history_drop by exact HN. rewrite length_drop. lia. }
  split; [exact Hlen|].
  pose proof (Z.div_mod (Z.of_nat (length (get_recent_history self T))) 2 ltac:(lia)).
  pose proof (Z.mod_pos_bound (Z.of_nat (length (get_recent_history self T))) 2 ltac:(lia)).
  split; [lia|]. split; [lia|].
  destruct (get_recent_history_is_drop self T) as [n ->].
  apply estimate_tokens_drop.
Qed.

Lemma get_stats_invariants_witness :
  1 <= window_size {| window_size := 1 |}
  /\ get_stats {| window_size := 1 |}
       [user_msg "abcd"; assistant_msg "efgh"; user_msg "ijkl"]
     !! "messages_in_memory" = Some 2.
Proof.
  split; [simpl; lia|].
  destruct (get_stats_invariants {| window_size := 1 |}
              [user_msg "abcd"; assistant_msg "efgh"; user_msg "ijkl"]
              ltac:(simpl; lia))
    as (total & mem & toks & pairs & _ & _ & Hmem & _ & _ & Htotal & Hmin & _).
  rewrite Hmem, Hmin, Htotal. reflexivity.
Defined.

Lemma validate_history_loop_iff (history : list HistoryItem) :
  validate_history_loop history = true <->
  forall item, item ∈ history ->
    exists msg role, item = ItemDict msg /\ msg !! "role" = Some role
                     /\ (role = "user" \/ role = "assistant")
                     /\ is_Some (msg !! "content").
Proof.
  induction history as [|item rest IH].
  - split; [|reflexivity]. intros _ item Hin. now apply elem_of_nil in Hin.
  - cbn [validate_history_loop]. destruct item as [msg|].
    2:{ split; [discriminate|]. intros H.
        destruct (H ItemOther) as (msg & role & Heq & _); [apply elem_of_cons; now left|].
        discriminate. }
    destruct (msg !! "role") as [role|] eqn:Hrole.
    2:{ split; [discriminate|]. intros H.
        destruct (H (ItemDict msg)) as (msg' & role & Heq & Hr & _);
          [apply elem_of_cons; now left|].
        inversion Heq; subst. congruence. }
    destruct (msg !! "content") as [content|] eqn:Hcontent.
    2:{ split; [discriminate|]. intros H.
        destruct (H (ItemDict msg)) as (msg' & role' & Heq & _ & _ & Hc);
          [apply elem_of_cons; now left|].
        inversion Heq; subst. rewrite Hcontent in Hc. now destruct Hc. }
    unfold Prompts.str_in_list. cbn [existsb].
    destruct (String.eqb_spec role "user") as [->|Hu]; cbn [orb].
    + rewrite IH. split.
      * intros H item Hin. apply elem_of_cons in Hin as [->|Hin]; [|now apply H].
        exists msg, "user". rewrite Hcontent. eauto 6.
      * intros H item Hin. apply H. apply elem_of_cons. now right.
    + destruct (String.eqb_spec role "assistant") as [->|Ha]; cbn [orb].
      * rewrite IH. split.
        -- intros H item Hin. apply elem_of_cons in Hin as [->|Hin]; [|now apply H].
           exists msg, "assistant". rewrite Hcontent. eauto 6.
        -- intros H item Hin. apply H. apply elem_of_cons. now right.
      * split; [discriminate|]. intros H.
        destruct (H (ItemDict msg)) as (msg' & role' & Heq & Hr & [->| ->] & _);
          [apply elem_of_cons; now left| |];
          inversion Heq; subst; congruence.
Qed.

Lemma validate_history_loop_eq (self : t) (history : list HistoryItem) :
  validate_history self history = validate_history_loop history.
Proof. unfold validate_history. now destruct history. Qed.

(** [validate_history] accepts a list exactly when every element is a
    dict that has a ['content'] key and a ['role'] key whose value is
    ['user'] or ['assistant']; the empty list is accepted. *)
Theorem validate_history_iff (self : t) (history : list HistoryItem) :
  validate_history self history = true <->
  forall item, item ∈ history ->
    exists msg role, item = ItemDict msg /\ msg !! "role" = Some role
                     /\ (role = "user" \/ role = "assistant")
                     /\ is_Some (msg !! "content").
Proof.
  rewrite validate_history_loop_eq. apply validate_history_loop_iff.
Qed.

(** Cutting a transcript that passes [validate_history] gives lists that
    pass it too, for any window size. *)
Theorem validate_history_window (self : t) (T : list Message) :
  validate_history self (ItemDict <$> T) = true ->
  validate_history self (ItemDict <$> get_recent_history self T) = true
  /\ validate_history self (ItemDict <$> get_last_pair self T) = true.
Proof.
  rewrite !validate_history_loop_eq, !validate_history_loop_iff. intros Hvalid.
  assert (Hsub : forall n item, item ∈ ItemDict <$> drop n T -> item ∈ ItemDict <$> T).
  { intros n item Hin. apply list_elem_of_fmap in Hin as (m & -> & Hm).
    apply list_elem_of_fmap. exists m. split; [reflexivity|].
    rewrite <- (take_drop n T). apply elem_of_app. now right. }
  split; intros item Hin; apply Hvalid.
  - unfold get_recent_history in Hin. destruct T as [|m T]; [exact Hin|].
    unfold slice_from in Hin. eapply Hsub, Hin.
  - unfold get_last_pair in Hin.
    destruct (Z.of_nat (length T) <? 2).
    + now apply elem_of_nil in Hin.
    + unfold slice_from in Hin. eapply Hsub, Hin.
Qed.

Lemma validate_history_window_witness :
  validate_history {| window_size := 1 |}
    (ItemDict <$> [user_msg "1"; assistant_msg "2"; user_msg "3"]) = true
  /\ validate_history {| window_size := 1 |}
       (ItemDict <$> get_recent_history {| window_size := 1 |}
                       [user_msg "1"; assistant_msg "2"; user_msg "3"]) = true.
Proof.
  split; [reflexivity|].
  exact (proj1 (validate_history_window {| window_size := 1 |}
                  [user_msg "1"; assistant_msg "2"; user_msg "3"] eq_refl)).
Defined.

End MemoryStatsFacts.

(** ** More on the classifiers *)

Module ClassifierFacts.
Import PyStr PyStrFacts Prompts Notions.

Lemma lower_char_idem (c : ascii) : lower_char (lower_char c) = lower_char c.
Proof. destruct c as [[] [] [] [] [] [] [] []]; reflexivity. Qed.

Lemma lower_upper_char (c : ascii) : lower_char (upper_char c) = lower_char c.
Proof. destruct c as [[] [] [] [] [] [] [] []]; reflexivity. Qed.

Lemma lower_space_char (c : ascii) : is_space c = true -> lower_char c = c.
Proof. destruct c as [[] [] [] [] [] [] [] []]; (reflexivity || discriminate). Qed.

Lemma lower_lower (s : string) : lower (lower s) = lower s.
Proof.
  unfold lower. induction s as [|c s IH]; [reflexivity|].
  cbn [map_chars]. now rewrite lower_char_idem, IH.
Qed.

Lemma lower_upper (s : string) : lower (upper s) = lower s.
Proof.
  unfold lower, upper. induction s as [|c s IH]; [reflexivity|].
  cbn [map_chars]. now rewrite lower_upper_char, IH.
Qed.

Lemma lower_app (a b : string) : lower (a ++ b) = lower a ++ lower b.
Proof.
  unfold lower. induction a as [|c a IH]; [reflexivity|].
  rewrite append_cons. cbn [map_chars]. now rewrite IH, append_cons.
Qed.

Lemma lower_blank (ws : string) : is_blank ws = true -> lower ws = ws.
Proof.
  unfold lower. induction ws as [|c ws IH]; [reflexivity|].
  cbn [is_blank map_chars]. intros [Hc Hws]%andb_true_iff.
  now rewrite lower_space_char, IH.
Qed.

(** Neither classifier looks at the case of the letters. *)
Theorem classifiers_ignore_case (query : string) :
  is_greeting (upper query) = is_greeting query
  /\ is_greeting (lower query) = is_greeting query
  /\ is_off_topic (upper query) = is_off_topic query
  /\ is_off_topic (lower query) = is_off_topic query.
Proof.
  unfold is_greeting, is_off_topic.
  rewrite lower_upper, lower_lower. repeat split; reflexivity.
Qed.

Lemma lstrip_app (a b : string) :
  lstrip (a ++ b) = match lstrip a with
                    | EmptyString => lstrip b
                    | r => r ++ b
                    end.
Proof.
  induction a as [|c a IH]; [reflexivity|].
  rewrite append_cons. cbn [lstrip]. destruct (is_space c); [exact IH|].
  now rewrite append_cons.
Qed.

Lemma rstrip_app (a b : string) :
  rstrip (a ++ b) = match rstrip b with
                    | EmptyString => rstrip a
                    | _ => a ++ rstrip b
                    end.
Proof.
  induction a as [|c a IH].
  - rewrite append_nil_l. now destruct (rstrip b).
  - rewrite append_cons. cbn [rstrip]. rewrite IH.
    destruct (rstrip b) as [|x r] eqn:Hb; [reflexivity|].
    rewrite append_cons. now destruct a.
Qed.

Lemma lstrip_blank (ws : string) : is_blank ws = true -> lstrip ws = "".
Proof.
  induction ws as [|c ws IH]; [reflexivity|].
  cbn [is_blank lstrip]. intros [Hc Hws]%andb_true_iff. rewrite Hc. auto.
Qed.

Lemma rstrip_blank (ws : string) : is_blank ws = true -> rstrip ws = "".
Proof.
  induction ws as [|c ws IH]; [reflexivity|].
  cbn [is_blank rstrip]. intros [Hc Hws]%andb_true_iff.
  now rewrite IH, Hc.
Qed.

Lemma strip_padding (ws1 ws2 s : string) :
  is_blank ws1 = true -> is_blank ws2 = true ->
  strip (ws1 ++ s ++ ws2) = strip s.
Proof.
  intros H1 H2. unfold strip.
  rewrite lstrip_app, (lstrip_blank ws1 H1), lstrip_app.
  destruct (lstrip s) as [|c r] eqn:Hs.
  - now rewrite (lstrip_blank ws2 H2).
  - now rewrite rstrip_app, (rstrip_blank ws2 H2).
Qed.

(** White space around a query does not change [is_greeting]. *)
Theorem is_greeting_ignores_padding (ws1 ws2 query : string) :
  is_blank ws1 = true -> is_blank ws2 = true ->
  is_greeting (ws1 ++ query ++ ws2) = is_greeting query.
Proof.
  intros H1 H2. unfold is_greeting.
  rewrite !lower_app, (lower_blank ws1 H1), (lower_blank ws2 H2).
  now rewrite strip_padding.
Qed.

Lemma is_greeting_ignores_padding_witness :
  is_blank "  " = true /\ is_blank (" " ++ LF) = true
  /\ is_greeting ("  " ++ "Good Morning" ++ (" " ++ LF)) = is_greeting "Good Morning".
Proof.
  split; [reflexivity|]. split; [reflexivity|].
  apply (is_greeting_ignores_padding "  " (" " ++ LF) "Good Morning"); reflexivity.
Defined.

Lemma greetings_clean (g : string) :
  In g greetings ->
  lower g = g /\ lstrip g = g /\ rstrip g = g /\ g <> "".
Proof.
  intros Hin. simpl in Hin.
  repeat (destruct Hin as [<-|Hin]; [repeat split; (reflexivity || discriminate)|]).
  contradiction.
Qed.

Lemma str_in_list_In (x : string) (xs : list string) : In x xs -> str_in_list x xs = true.
Proof.
  intros Hin. unfold str_in_list. apply existsb_exists. exists x.
  split; [exact Hin | apply String.eqb_refl].
Qed.

Lemma rstrip_comma (s : string) : rstrip ("," ++ s) = "," ++ rstrip s.
Proof.
  change ("," ++ s) with (String "," s). cbn [rstrip].
  now destruct (rstrip s).
Qed.

Lemma rstrip_space (s : string) :
  rstrip (" " ++ s) = match rstrip s with
                      | EmptyString => ""
                      | r => " " ++ r
                      end.
Proof.
  change (" " ++ s) with (String " " s). cbn [rstrip].
  now destruct (rstrip s).
Qed.

(** A query that begins with a greeting word followed by a comma or a
    space is a greeting, whatever comes after. *)
Theorem is_greeting_prefix (g rest : string) :
  In g greetings ->
  is_greeting (g ++ "," ++ rest) = true /\ is_greeting (g ++ " " ++ rest) = true.
Proof.
  intros Hin. destruct (greetings_clean g Hin) as (Hlow & Hl & Hr & Hne).
  assert (Hls : forall tail, lstrip (g ++ tail) = g ++ tail).
  { intros tail. rewrite lstrip_app, Hl. destruct g; [congruence | reflexivity]. }
  unfold is_greeting, strip. rewrite !lower_app, Hlow, !Hls.
  change (lower ",") with ",". change (lower " ") with " ".
  split; apply orb_true_iff.
  - right. apply existsb_exists. exists g. split; [exact Hin|].
    apply orb_true_iff. right.
    rewrite rstrip_app, rstrip_comma.
    change ("," ++ rstrip (lower rest)) with (String "," (rstrip (lower rest))).
    cbv iota. change (String "," (rstrip (lower rest))) with ("," ++ rstrip (lower rest)).
    rewrite <- append_assoc. apply startswith_app.
  - rewrite rstrip_app, rstrip_space.
    destruct (rstrip (lower rest)) as [|x r] eqn:Hrest.
    + left. rewrite Hr. now apply str_in_list_In.
    + right. apply existsb_exists. exists g. split; [exact Hin|].
      apply orb_true_iff. left.
      change (" " ++ String x r) with (String " " (String x r)). cbv iota.
      change (String " " (String x r)) with (" " ++ String x r).
      rewrite <- append_assoc. apply startswith_app.
Qed.

Lemma is_greeting_prefix_witness :
  In "hi" greetings
  /\ is_greeting ("hi" ++ "," ++ " what is the weather like?") = true.
Proof.
  split; [simpl; tauto|].
  exact (proj1 (is_greeting_prefix "hi" " what is the weather like?"
                  ltac:(simpl; tauto))).
Defined.

End ClassifierFacts.

(** ** More on the citations *)

Module CitationFacts.
Import PyStr PyStrFacts PyList Cite CiteFacts Samples.

Lemma format_sources_loop_by_source (cs cs' : list Chunk) (k : nat)
      (sources : string) (seen : gset MetaVal) :
  map chunk_source cs = map chunk_source cs' ->
  format_sources_loop (enumerate k cs) sources seen
  = format_sources_loop (enumerate k cs') sources seen.
Proof.
  revert cs' k sources seen.
  induction cs as [|c cs IH]; intros [|c' cs'] k sources seen Hmap;
    try discriminate; [reflexivity|].
  cbn [map] in Hmap. injection Hmap as Hc Hcs.
  cbn [enumerate format_sources_loop]. rewrite Hc.
  destruct (decide (chunk_source c' ∈ seen)); now apply IH.
Qed.

(** [format_sources] reads nothing of a chunk but its source: two lists
    of chunks with the same sources, position by position, give the same
    text, whether the chunks are documents or dicts. *)
Theorem format_sources_by_source (chunks chunks' : list Chunk) :
  map chunk_source chunks = map chunk_source chunks' ->
  format_sources chunks = format_sources chunks'.
Proof.
  intros Hmap. unfold format_sources.
  destruct chunks as [|c cs], chunks' as [|c' cs']; try discriminate; [reflexivity|].
  now rewrite (format_sources_loop_by_source (c :: cs) (c' :: cs')).
Qed.

Lemma format_sources_by_source_witness :
  map chunk_source [chunk_B; chunk_A]
  = map chunk_source [ChunkDict None (Some {[ "source" := MStr "B" ]});
                      ChunkDoc {| page_content := "other text";
                                  metadata := {[ "source" := MStr "A" ]} |}]
  /\ format_sources [chunk_B; chunk_A]
     = format_sources [ChunkDict None (Some {[ "source" := MStr "B" ]});
                       ChunkDoc {| page_content := "other text";
                                   metadata := {[ "source" := MStr "A" ]} |}].
Proof.
  split; [reflexivity|].
  apply format_sources_by_source. reflexivity.
Defined.

Lemma citations_loop_length (ics : list (nat * Chunk)) (seen : gset MetaVal) :
  (length (citations_loop ics seen) <= length ics)%nat.
Proof.
  revert seen. induction ics as [|[i c] rest IH]; intros seen; [reflexivity|].
  cbn [citations_loop].
  destruct (decide (chunk_source c ∈ seen)); cbn [length].
  - specialize (IH seen). lia.
  - specialize (IH ({[chunk_source c]} ∪ seen)). lia.
Qed.

Lemma enumerate_length {A} (k : nat) (l : list A) : length (enumerate k l) = length l.
Proof. revert k. induction l as [|x l IH]; intros k; simpl; [reflexivity | now rewrite IH]. Qed.

(** For a non-empty list the text of [format_sources] is the header,
    then the line numbered 1 with the source of the first chunk, then the
    lines of the other citations, which are fewer than the chunks. *)
Theorem citations_first_chunk (chunk : Chunk) (rest : list Chunk) :
  exists tail,
    format_sources (chunk :: rest)
    = sources_header ++ (pretty 1%nat ++ ". " ++ py_str (chunk_source chunk) ++ LF)
                     ++ render_citations tail
    /\ citations (chunk :: rest) = (1%nat, chunk_source chunk) :: tail
    /\ (length tail < length (chunk :: rest))%nat.
Proof.
  assert (Hcit : exists tail,
             citations (chunk :: rest) = (1%nat, chunk_source chunk) :: tail
             /\ (length tail < length (chunk :: rest))%nat).
  { unfold citations. cbn [enumerate citations_loop].
    destruct (decide (chunk_source chunk ∈ (∅ : gset MetaVal))) as [Hin|_].
    { now apply not_elem_of_empty in Hin. }
    eexists. split; [reflexivity|]. cbn [length].
    pose proof (citations_loop_length (enumerate 2 rest) ({[chunk_source chunk]} ∪ ∅))
      as Hlen.
    rewrite enumerate_length in Hlen. lia. }
  destruct Hcit as (tail & Hcit & Hlen). exists tail.
  split; [|split; [exact Hcit | exact Hlen]].
  rewrite format_sources_render by discriminate. rewrite Hcit. reflexivity.
Qed.

Lemma format_sources_nonempty (chunks : list Chunk) :
  chunks <> [] -> String.eqb (format_sources chunks) "" = false.
Proof.
  intros Hne. rewrite format_sources_render by exact Hne. reflexivity.
Qed.

(** [enhance_response_with_sources] never changes the answer text, it
    only extends it: without chunks the answer comes back as it is, with
    chunks it is followed by a line feed and the citation block. *)
Theorem enhance_response_extends (answer : string) (chunks : list Chunk) :
  startswith (enhance_response_with_sources answer chunks) answer = true
  /\ (chunks = [] -> enhance_response_with_sources answer chunks = answer)
  /\ (chunks <> [] ->
      enhance_response_with_sources answer chunks
      = answer ++ LF ++ sources_header ++ render_citations (citations chunks)).
Proof.
  unfold enhance_response_with_sources. destruct chunks as [|c cs].
  - split; [|split; [reflexivity | congruence]].
    cbn. rewrite <- (append_nil_r answer) at 1. apply startswith_app.
  - rewrite format_sources_nonempty by discriminate.
    split; [apply startswith_app|]. split; [discriminate|].
    intros _. now rewrite format_sources_render by discriminate.
Qed.

Lemma enhance_response_extends_witness :
  [chunk_A] <> []
  /\ enhance_response_with_sources "Answer." [chunk_A]
     = "Answer." ++ LF ++ sources_header ++ "1. A" ++ LF.
Proof.
  split; [discriminate|].
  exact (proj2 (proj2 (enhance_response_extends "Answer." [chunk_A]))
           ltac:(discriminate)).
Defined.

End CitationFacts.

(** ** More on the reranking step *)

Module RerankFacts.
Import PyStr PyList Pipeline Notions Samples PipelineFacts.

Lemma same_document_refl (d : Document) : same_document d d.
Proof. split; [reflexivity | intros; reflexivity]. Qed.

Lemma same_document_scored (score : string) (d d0 : Document) :
  same_document d d0 -> same_document (set_rerank_score score d) d0.
Proof.
  intros [Hc Hm]. split; [exact Hc|]. intros key Hkey. cbn [set_rerank_score metadata].
  rewrite lookup_insert_ne by congruence. now apply Hm.
Qed.

Lemma has_score_set (score : string) (d : Document) : has_score (set_rerank_score score d).
Proof. unfold has_score. cbn [set_rerank_score metadata]. rewrite lookup_insert_eq. eauto. Qed.

Lemma Forall2_same_refl (docs : list Document) : Forall2 same_document docs docs.
Proof. induction docs; constructor; auto using same_document_refl. Qed.

Lemma norm_index_length {A B} (i : Z) (l : list A) (l' : list B) :
  length l = length l' -> norm_index i l = norm_index i l'.
Proof. intros H. unfold norm_index. now rewrite H. Qed.

Lemma norm_index_lt {A} (i : Z) (l : list A) (j : nat) :
  norm_index i l = Some j -> (j < length l)%nat.
Proof.
  unfold norm_index. cbv zeta.
  set (k := if i <? 0 then i + Z.of_nat (length l) else i).
  destruct (Z.leb_spec 0 k); cbn [andb]; [|discriminate].
  destruct (Z.ltb_spec k (Z.of_nat (length l))); [|discriminate].
  intros [= <-]. lia.
Qed.

(** The loop changes nothing of the documents but their scores. *)
Lemma rerank_loop_same (results : list RerankResult) (docs0 : list Document) :
  forall (docs : list Document) (refs : list nat) (docs' : list Document)
         (r : result (list nat)),
    Forall2 same_document docs docs0 ->
    rerank_loop results docs refs = (docs', r) ->
    Forall2 same_document docs' docs0.
Proof.
  induction results as [|r0 rest IH]; intros docs refs docs' r Hsame Hloop.
  - cbn in Hloop. now injection Hloop as <- _.
  - cbn [rerank_loop] in Hloop.
    destruct (norm_index (index r0) docs) as [j|].
    + eapply IH; [|exact Hloop]. apply Forall2_alter_l; [exact Hsame|].
      intros x y _ _ Hxy. now apply same_document_scored.
    + now injection Hloop as <- _.
Qed.

(** A score, once written, stays. *)
Lemma rerank_loop_scored (results : list RerankResult) :
  forall (docs : list Document) (refs : list nat) (docs' : list Document)
         (r : result (list nat)) (j : nat) (d : Document),
    rerank_loop results docs refs = (docs', r) ->
    docs !! j = Some d -> has_score d ->
    exists d', docs' !! j = Some d' /\ has_score d'.
Proof.
  induction results as [|r0 rest IH]; intros docs refs docs' r j d Hloop Hj Hd.
  - cbn in Hloop. injection Hloop as <- _. eauto.
  - cbn [rerank_loop] in Hloop.
    destruct (norm_index (index r0) docs) as [j0|].
    2:{ injection Hloop as <- _. eauto. }
    destruct (decide (j0 = j)) as [->|Hne].
    + eapply (IH _ _ _ _ j); [exact Hloop| |apply (has_score_set (relevance_score r0) d)].
      rewrite list_lookup_alter. rewrite decide_True by reflexivity. now rewrite Hj.
    + eapply (IH _ _ _ _ j); [exact Hloop| |exact Hd].
      now rewrite list_lookup_alter_ne.
Qed.

(** With every position in range the loop ends normally, having collected
    the positions in the order of the results and scored each of them. *)
Lemma rerank_loop_ok (results : list RerankResult) :
  forall (docs : list Document) (refs : list nat),
    (forall r, r ∈ results -> is_Some (norm_index (index r) docs)) ->
    exists docs' js,
      rerank_loop results docs refs = (docs', Ok (refs ++ js)%list)
      /\ Forall2 (fun r j => norm_index (index r) docs = Some j) results js
      /\ (forall j, j ∈ js -> exists d', docs' !! j = Some d' /\ has_score d').
Proof.
  induction results as [|r0 rest IH]; intros docs refs Hall.
  - exists docs, []. rewrite app_nil_r. split; [reflexivity|].
    split; [constructor|]. intros j Hj. now apply elem_of_nil in Hj.
  - destruct (Hall r0) as [j0 Hj0]; [apply elem_of_cons; now left|].
    pose proof (norm_index_lt _ _ _ Hj0) as Hlt.
    destruct (lookup_lt_is_Some_2 docs j0 Hlt) as [d0 Hd0].
    set (docs1 := alter (set_rerank_score (relevance_score r0)) j0 docs).
    assert (Hlen : length docs1 = length docs) by apply length_alter.
    destruct (IH docs1 (refs ++ [j0])%list) as (docs' & js & Hloop & Hpos & Hsc).
    { intros r Hr. rewrite (norm_index_length _ docs1 docs Hlen).
      apply Hall. apply elem_of_cons. now right. }
    exists docs', (j0 :: js). cbn [rerank_loop]. rewrite Hj0. fold docs1.
    rewrite Hloop, <- app_assoc. split; [reflexivity|]. split.
    + constructor; [exact Hj0|].
      eapply Forall2_impl; [exact Hpos|]. intros r j Hrj.
      now rewrite <- (norm_index_length _ docs1 docs Hlen).
    + intros j Hj. apply elem_of_cons in Hj as [->|Hj]; [|now apply Hsc].
      eapply (rerank_loop_scored rest docs1 _ docs' _ j0); [exact Hloop| |].
      * unfold docs1. rewrite list_lookup_alter, decide_True by reflexivity.
        now rewrite Hd0.
      * apply has_score_set.
Qed.

(** A position out of range ends the loop with [IndexError]. *)
Lemma rerank_loop_bad (results : list RerankResult) :
  forall (docs : list Document) (refs : list nat),
    (exists r, r ∈ results /\ norm_index (index r) docs = None) ->
    exists docs', rerank_loop results docs refs = (docs', Raise IndexError).
Proof.
  induction results as [|r0 rest IH]; intros docs refs (r & Hr & Hbad).
  - now apply elem_of_nil in Hr.
  - cbn [rerank_loop]. destruct (norm_index (index r0) docs) as [j0|] eqn:Hj0; [|eauto].
    apply elem_of_cons in Hr as [->|Hr]; [congruence|].
    apply IH. exists r. split; [exact Hr|].
    rewrite <- Hbad. apply norm_index_length, length_alter.
Qed.

Lemma slice_to_same (top_n : Z) (docs' docs : list Document) :
  Forall2 same_document docs' docs ->
  Forall2 same_document (slice_to top_n docs') (slice_to top_n docs).
Proof.
  intros H. unfold slice_to. rewrite (Forall2_length _ _ _ H).
  now apply Forall2_take.
Qed.

Lemma slice_to_elem {A} (top_n : Z) (l : list A) (x : A) :
  x ∈ slice_to top_n l -> x ∈ l.
Proof. unfold slice_to. apply subseteq_take. Qed.

(** [_rerank_with_cohere] always returns, after at most one external
    call, and returns retrieved documents only: each document of the
    result is one of [documents], up to its rerank score. *)
Theorem rerank_returns_retrieved (self : Collaborators) (query : string)
        (documents : list Document) (top_n : Z) :
  exists valid_docs log,
    _rerank_with_cohere self query documents top_n = (Ok valid_docs, log)
    /\ (length log <= 1)%nat
    /\ (documents = [] -> valid_docs = [] /\ log = [])
    /\ forall d, d ∈ valid_docs ->
         exists d0, d0 ∈ documents /\ same_document d d0.
Proof.
  destruct documents as [|d1 ds].
  { exists [], []. split; [reflexivity|]. split; [simpl; lia|]. split; [auto|].
    intros d Hd. now apply elem_of_nil in Hd. }
  unfold _rerank_with_cohere, call.
  destruct (cohere_rerank self query (map page_content (d1 :: ds)) top_n) as [results|e].
  - destruct (rerank_loop results (d1 :: ds) []) as [docs' [refs|e]] eqn:Hloop;
      pose proof (rerank_loop_same results (d1 :: ds) _ _ _ _
                    (Forall2_same_refl _) Hloop) as Hsame;
      eexists _, _; (split; [reflexivity|]); (split; [simpl; lia|]);
      (split; [discriminate|]); intros d Hd.
    + unfold deref in Hd. apply list_elem_of_omap in Hd as (j & _ & Hj).
      destruct (Forall2_lookup_l _ _ _ _ _ Hsame Hj) as (d0 & Hd0 & Hdd0).
      exists d0. split; [|exact Hdd0]. apply list_elem_of_lookup. eauto.
    + apply slice_to_elem, list_elem_of_lookup in Hd as [j Hj].
      destruct (Forall2_lookup_l _ _ _ _ _ Hsame Hj) as (d0 & Hd0 & Hdd0).
      exists d0. split; [|exact Hdd0]. apply list_elem_of_lookup. eauto.
  - eexists _, _. split; [reflexivity|]. split; [simpl; lia|].
    split; [discriminate|]. intros d Hd. exists d.
    split; [now apply slice_to_elem in Hd | apply same_document_refl].
Qed.

(** Both kinds of reranking failure, an exception of the service and a
    position out of range in its answer, end in the same fallback: the
    first [top_n] retrieved documents in retrieval order, up to scores
    written before the failure. *)
Theorem rerank_failure_fallback (self : Collaborators) (query : string)
        (documents : list Document) (top_n : Z) :
  documents <> [] ->
  ((exists e, cohere_rerank self query (map page_content documents) top_n = Raise e)
   \/ (exists results r,
         cohere_rerank self query (map page_content documents) top_n = Ok results
         /\ r ∈ results /\ norm_index (index r) documents = None)) ->
  exists valid_docs,
    _rerank_with_cohere self query documents top_n
    = (Ok valid_docs, [CallRerank query (map page_content documents) top_n])
    /\ Forall2 same_document valid_docs (slice_to top_n documents).
Proof.
  intros Hne Hfail. destruct documents as [|d1 ds]; [congruence|].
  unfold _rerank_with_cohere, call.
  destruct Hfail as [[e He] | (results & r & Hres & Hr & Hbad)].
  - rewrite He. eexists. split; [reflexivity | apply Forall2_same_refl].
  - rewrite Hres.
    destruct (rerank_loop_bad results (d1 :: ds) [] (ex_intro _ r (conj Hr Hbad)))
      as [docs' Hloop].
    rewrite Hloop. eexists. split; [reflexivity|].
    apply slice_to_same.
    exact (rerank_loop_same results (d1 :: ds) _ _ _ _ (Forall2_same_refl _) Hloop).
Qed.

Lemma rerank_failure_fallback_witness :
  [doc "d1"; doc "d2"] <> []
  /\ norm_index 7 [doc "d1"; doc "d2"] = None
  /\ exists valid_docs,
      _rerank_with_cohere rerank_bad_index "q" [doc "d1"; doc "d2"] 5
      = (Ok valid_docs, [CallRerank "q" (map page_content [doc "d1"; doc "d2"]) 5])
      /\ Forall2 same_document valid_docs (slice_to 5 [doc "d1"; doc "d2"]).
Proof.
  split; [discriminate|]. split; [reflexivity|].
  apply (rerank_failure_fallback rerank_bad_index "q" [doc "d1"; doc "d2"] 5).
  - discriminate.
  - right. exists [ {| index := 1; relevance_score := "0.9" |};
                    {| index := 7; relevance_score := "0.1" |} ],
                  {| index := 7; relevance_score := "0.1" |}.
    split; [reflexivity|]. split; [|reflexivity].
    apply list_elem_of_further, list_elem_of_here.
Defined.

Lemma deref_results (docs0 docs' : list Document) :
  Forall2 same_document docs' docs0 ->
  forall (results : list RerankResult) (js : list nat),
    Forall2 (fun r j => norm_index (index r) docs0 = Some j) results js ->
    (forall j, j ∈ js -> exists d', docs' !! j = Some d' /\ has_score d') ->
    Forall2 (fun d r => exists j d0, norm_index (index r) docs0 = Some j
                                     /\ docs0 !! j = Some d0
                                     /\ same_document d d0 /\ has_score d)
            (deref docs' js) results.
Proof.
  intros Hsame results js Hpos. induction Hpos as [|r j results js Hrj Hpos IH];
    intros Hsc; [constructor|].
  destruct (Hsc j) as (d' & Hd' & Hscore); [apply elem_of_cons; now left|].
  unfold deref. cbn [omap list_omap]. rewrite Hd'. constructor.
  - destruct (Forall2_lookup_l _ _ _ _ _ Hsame Hd') as (d0 & Hd0 & Hdd0).
    exists j, d0. auto.
  - apply IH. intros j' Hj'. apply Hsc. apply elem_of_cons. now right.
Qed.

(** When the service answers and every position of its answer is in
    range, the result follows the answer item by item: the i-th document
    returned is the retrieved document at the i-th position named, with a
    rerank score.  The result is as long as the answer of the service. *)
Theorem rerank_follows_service (self : Collaborators) (query : string)
        (documents : list Document) (top_n : Z) (results : list RerankResult) :
  documents <> [] ->
  cohere_rerank self query (map page_content documents) top_n = Ok results ->
  (forall r, r ∈ results -> is_Some (norm_index (index r) documents)) ->
  exists valid_docs,
    _rerank_with_cohere self query documents top_n
    = (Ok valid_docs, [CallRerank query (map page_content documents) top_n])
    /\ length valid_docs = length results
    /\ Forall2 (fun d r => exists j d0, norm_index (index r) documents = Some j
                                        /\ documents !! j = Some d0
                                        /\ same_document d d0 /\ has_score d)
               valid_docs results.
Proof.
  intros Hne Hres Hall. destruct documents as [|d1 ds]; [congruence|].
  unfold _rerank_with_cohere, call. rewrite Hres.
  destruct (rerank_loop_ok results (d1 :: ds) [] Hall) as (docs' & js & Hloop & Hpos & Hsc).
  rewrite Hloop. cbn [app].
  pose proof (rerank_loop_same results (d1 :: ds) _ _ _ _ (Forall2_same_refl _) Hloop)
    as Hsame.
  pose proof (deref_results _ _ Hsame results js Hpos Hsc) as Hderef.
  eexists. split; [reflexivity|]. split; [|exact Hderef].
  exact (Forall2_length _ _ _ Hderef).
Qed.

End RerankFacts.

(** ** More on the pipeline *)

Module RunFacts.
Import PyStr PyStrFacts PyList Prompts Cite Pipeline Notions Samples MoreSamples
       PipelineFacts RerankFacts.

Lemma rerank_follows_service_witness :
  exists valid_docs,
    _rerank_with_cohere rerank_swaps "q" [doc "d1"; doc "d2"] 5
    = (Ok valid_docs, [CallRerank "q" (map page_content [doc "d1"; doc "d2"]) 5])
    /\ length valid_docs
       = length [ {| index := 1; relevance_score := "0.9" |};
                  {| index := -2; relevance_score := "0.4" |} ]
    /\ Forall2 (fun d r => exists j d0,
                    norm_index (index r) [doc "d1"; doc "d2"] = Some j
                    /\ [doc "d1"; doc "d2"] !! j = Some d0
                    /\ same_document d d0 /\ has_score d)
               valid_docs
               [ {| index := 1; relevance_score := "0.9" |};
                 {| index := -2; relevance_score := "0.4" |} ].
Proof.
  apply (rerank_follows_service rerank_swaps "q" [doc "d1"; doc "d2"] 5
           [ {| index := 1; relevance_score := "0.9" |};
             {| index := -2; relevance_score := "0.4" |} ]).
  - discriminate.
  - reflexivity.
  - intros r Hr.
    apply elem_of_cons in Hr as [->|Hr]; [now exists 1%nat|].
    apply elem_of_cons in Hr as [->|Hr]; [now exists 0%nat|].
    now apply elem_of_nil in Hr.
Defined.

(** The order of the service is what comes back: here the second
    candidate first, each with the score given for it. *)
Example rerank_swaps_result :
  fst (_rerank_with_cohere rerank_swaps "q" [doc "d1"; doc "d2"] 5)
  = Ok [set_rerank_score "0.9" (doc "d2"); set_rerank_score "0.4" (doc "d1")].
Proof. vm_compute. reflexivity. Qed.

(** An off-topic query that is no greeting gets the canned off-topic
    answer with no sources; no external call is made, so the outcome is
    the same for all collaborators. *)
Theorem run_off_topic_short_circuit (self : Collaborators) (query : string)
        (chat_history : list Message) :
  is_greeting query = false ->
  is_off_topic query = true ->
  run self query chat_history
  = (Ok (list_to_map [("answer", VStr OFF_TOPIC_RESPONSE);
                      ("sources", VDocs []);
                      ("status", VStr "off_topic")]), [])
  /\ (forall other : Collaborators,
         run other query chat_history = run self query chat_history).
Proof.
  intros Hg Ho. unfold run. rewrite Hg, Ho. split; reflexivity.
Qed.

Lemma run_off_topic_short_circuit_witness :
  is_greeting "best pizza recipe" = false
  /\ is_off_topic "best pizza recipe" = true
  /\ run offline "best pizza recipe" []
     = (Ok (list_to_map [("answer", VStr OFF_TOPIC_RESPONSE);
                         ("sources", VDocs []);
                         ("status", VStr "off_topic")]), []).
Proof.
  split; [reflexivity|]. split; [reflexivity|].
  exact (proj1 (run_off_topic_short_circuit offline "best pizza recipe" []
                  eq_refl eq_refl)).
Defined.

(** When the retriever is reached and finds nothing, [run] returns the
    canned no-context answer with status [no_docs] after exactly two
    calls, the expansion and the retrieval: reranker, answer model and
    verifier are not called. *)
Theorem run_no_docs (self : Collaborators) (query : string)
        (chat_history : list Message) (expanded_query : string) :
  CallRetriever expanded_query ∈ snd (run self query chat_history) ->
  retriever self expanded_query = Ok [] ->
  run self query chat_history
  = (Ok (list_to_map [("answer", VStr NO_CONTEXT_RESPONSE);
                      ("sources", VDocs []);
                      ("status", VStr "no_docs")]),
     [CallExpansion query; CallRetriever expanded_query]).
Proof.
  intros Hlog Hret. apply run_retrieval_reached in Hlog as (Hg & Ho & Hexp).
  unfold run. rewrite Hg, Ho. unfold bind, call. rewrite Hexp, Hret. reflexivity.
Qed.

Lemma run_no_docs_witness :
  run no_hits "When was CURT founded?" []
  = (Ok (list_to_map [("answer", VStr NO_CONTEXT_RESPONSE);
                      ("sources", VDocs []);
                      ("status", VStr "no_docs")]),
     [CallExpansion "When was CURT founded?";
      CallRetriever "expanded: When was CURT founded?"]).
Proof.
  apply (run_no_docs no_hits "When was CURT founded?" []
                     "expanded: When was CURT founded?").
  - vm_compute. apply list_elem_of_further, list_elem_of_here.
  - reflexivity.
Defined.

End RunFacts.

Module RunFlowFacts.
Import PyStr PyStrFacts PyList Prompts Cite CiteFacts CitationFacts Pipeline Notions
       Samples MoreSamples PipelineFacts.

(** When [run] raises, the exception is the one raised by the call it
    made last, and that call is the expansion, the retrieval, the answer
    model or the verifier: an exception of the reranking step never
    leaves [run]. *)
Theorem run_failure_origin (self : Collaborators) (query : string)
        (chat_history : list Message) (e : PyExc) (log : list Call) :
  run self query chat_history = (Raise e, log) ->
  exists earlier last, log = (earlier ++ [last])%list /\ raised_by self last e.
Proof.
  intros Hrun. pose proof (run_outcome self query chat_history) as Hout.
  rewrite Hrun in Hout. inversion Hout; subst; clear Hout.
  - exists [], (CallExpansion query). split; [reflexivity | assumption].
  - exists [CallExpansion query], (CallRetriever expanded_query).
    split; [reflexivity | assumption].
  - eexists [_; _; _], (CallRag _ _ _). split; [reflexivity | assumption].
  - eexists [_; _; _; _], (CallHallucination _ _). split; [reflexivity | assumption].
Qed.

Lemma run_failure_origin_witness :
  exists earlier last,
    [CallExpansion "When was CURT founded?";
     CallRetriever "expanded: When was CURT founded?";
     CallRerank "When was CURT founded?" ["text of d1"; "text of d2"] 5;
     CallRag ("text of d1" ++ LF ++ LF ++ "text of d2") "When was CURT founded?" []]
    = (earlier ++ [last])%list
    /\ raised_by rag_down last (CollaboratorError "rag down").
Proof.
  apply (run_failure_origin rag_down "When was CURT founded?" []).
  vm_compute. reflexivity.
Defined.

(** The external calls of a [run] are an initial part of one fixed
    sequence: expansion of the query, retrieval, reranking with the
    original query and [top_n = 5], answer with the original query and the
    formatted history, verification.  So there are at most five calls and
    no collaborator is called twice. *)
Theorem run_call_sequence (self : Collaborators) (query : string)
        (chat_history : list Message) :
  exists expanded_query texts context answer,
    snd (run self query chat_history)
    `prefix_of` [CallExpansion query;
                 CallRetriever expanded_query;
                 CallRerank query texts 5;
                 CallRag context query (format_chat_history chat_history);
                 CallHallucination context answer].
Proof.
  destruct (run_outcome self query chat_history); cbn [snd].
  - exists "", [], "", "". apply prefix_nil.
  - exists "", [], "", "". apply prefix_nil.
  - exists "", [], "", "". eexists. reflexivity.
  - exists expanded_query, [], "", "". eexists. reflexivity.
  - exists expanded_query, [], "", "". eexists. reflexivity.
  - eexists expanded_query, _, _, "". eexists. reflexivity.
  - eexists expanded_query, _, _, answer. eexists. reflexivity.
  - eexists expanded_query, _, _, answer. exists []. reflexivity.
Qed.

(** The reranker is asked with the query as the user wrote it, not with
    its expansion, for the texts of all retrieved documents in retrieval
    order and for five results. *)
Theorem rerank_call_arguments (self : Collaborators) (query : string)
        (chat_history : list Message) (query' : string) (texts : list string)
        (top_n : Z) :
  CallRerank query' texts top_n ∈ snd (run self query chat_history) ->
  query' = query /\ top_n = 5
  /\ exists expanded_query raw_docs,
      expansion_chain self query = Ok expanded_query
      /\ retriever self expanded_query = Ok raw_docs
      /\ raw_docs <> []
      /\ texts = map page_content raw_docs.
Proof.
  intros Hin. destruct (run_outcome self query chat_history); cbn [snd] in Hin;
    repeat (apply elem_of_cons in Hin as [Hin|Hin]; try discriminate Hin);
    try (now apply elem_of_nil in Hin);
    inversion Hin; subst; eauto 10.
Qed.

Lemma rerank_call_arguments_witness :
  "When was CURT founded?" = "When was CURT founded?" /\ 5 = 5
  /\ exists expanded_query raw_docs,
      expansion_chain (rerank_down "GROUNDED") "When was CURT founded?" = Ok expanded_query
      /\ retriever (rerank_down "GROUNDED") expanded_query = Ok raw_docs
      /\ raw_docs <> []
      /\ map page_content six_docs = map page_content raw_docs.
Proof.
  apply (rerank_call_arguments (rerank_down "GROUNDED") "When was CURT founded?" []).
  vm_compute. do 2 apply list_elem_of_further. apply list_elem_of_here.
Defined.

Lemma enhance_startswith (answer : string) (chunks : list Chunk) :
  startswith (enhance_response_with_sources answer chunks) answer = true.
Proof.
  unfold enhance_response_with_sources.
  destruct (String.eqb (format_sources chunks) ""); [|apply startswith_app].
  rewrite <- (append_nil_r answer) at 1. apply startswith_app.
Qed.

Lemma startswith_refl (s : string) : startswith s s = true.
Proof. rewrite <- (append_nil_r s) at 1. apply startswith_app. Qed.

(** The verification is advisory: when the verifier has answered, [run]
    returns, [raw_answer] begins with the draft of the answer model and
    the final answer begins with [raw_answer]; when the verdict does not
    start with HALLUCINATION, [raw_answer] is the draft itself. *)
Theorem run_answer_extends_draft (self : Collaborators) (query : string)
        (chat_history : list Message) (context draft check_result : string) :
  CallHallucination context draft ∈ snd (run self query chat_history) ->
  hallucination_chain self context draft = Ok check_result ->
  exists res raw final,
    fst (run self query chat_history) = Ok res
    /\ res !! "status" = Some (VStr "success")
    /\ res !! "raw_answer" = Some (VStr raw)
    /\ res !! "answer" = Some (VStr final)
    /\ startswith raw draft = true
    /\ startswith final raw = true
    /\ (startswith (upper (strip check_result)) "HALLUCINATION" = false -> raw = draft).
Proof.
  intros Hlog Hver.
  destruct (run_outcome self query chat_history); cbn [snd] in Hlog;
    repeat (apply elem_of_cons in Hlog as [Hlog|Hlog]; try discriminate Hlog);
    try (now apply elem_of_nil in Hlog);
    inversion Hlog; subst; try congruence.
  assert (check_result0 = check_result) by congruence. subst check_result0.
  eexists _, _, _. split; [reflexivity|]. split; [reflexivity|].
  split; [reflexivity|]. split; [reflexivity|].
  split; [|split; [apply enhance_startswith|]].
  - destruct (startswith (upper (strip check_result)) "HALLUCINATION");
      [apply startswith_app | apply startswith_refl].
  - now intros ->.
Qed.

Lemma run_answer_extends_draft_witness :
  exists res raw final,
    fst (run (rerank_down "GROUNDED") "When was CURT founded?" []) = Ok res
    /\ res !! "status" = Some (VStr "success")
    /\ res !! "raw_answer" = Some (VStr raw)
    /\ res !! "answer" = Some (VStr final)
    /\ startswith raw "Draft answer." = true
    /\ startswith final raw = true
    /\ (startswith (upper (strip "GROUNDED")) "HALLUCINATION" = false
        -> raw = "Draft answer.").
Proof.
  apply (run_answer_extends_draft (rerank_down "GROUNDED") "When was CURT founded?" []
           (join (LF ++ LF) (map page_content (take 5 six_docs)))
           "Draft answer." "GROUNDED").
  - vm_compute. do 4 apply list_elem_of_further. apply list_elem_of_here.
  - reflexivity.
Defined.

End RunFlowFacts.

(** ** The window after a further prompt *)

Module TurnHistoryFacts.
Import PyList Notions MemoryManager MemoryFacts.

(** Once an alternating session holds at least [N] complete pairs, the
    window taken after the next prompt has exactly [2 N] messages and
    begins with an assistant message: the oldest pair kept is cut in two. *)
Theorem window_starts_with_assistant (memory_mgr : MemoryManager.t)
        (T : list Message) (prompt : string) :
  1 <= window_size memory_mgr ->
  alternating T ->
  Nat.Even (length T) ->
  2 * window_size memory_mgr <= Z.of_nat (length T) ->
  exists first rest,
    get_recent_history memory_mgr (T ++ [user_msg prompt]) = first :: rest
    /\ first !! "role" = Some "assistant"
    /\ Z.of_nat (length (first :: rest)) = 2 * window_size memory_mgr.
Proof.
  intros HN Halt [k Hk] Hlen.
  rewrite get_recent_history_drop by exact HN.
  rewrite length_app. cbn [length].
  set (n := (length T + 1 - Z.to_nat (2 * window_size memory_mgr))%nat).
  assert (Hn : (n < length T)%nat) by (unfold n; lia).
  destruct (lookup_lt_is_Some_2 T n Hn) as [first Hfirst].
  exists first, (drop (S n) T ++ [user_msg prompt])%list.
  split; [|split].
  - rewrite drop_app_le by lia. now rewrite (drop_S T first n Hfirst).
  - rewrite (Halt n first Hfirst).
    assert (Nat.even n = false) as ->; [|reflexivity].
    destruct (Nat.even n) eqn:He; [|reflexivity].
    apply Nat.even_spec in He as [h Hh]. unfold n in Hh. lia.
  - cbn [length]. rewrite length_app, length_drop. cbn [length]. lia.
Qed.

Lemma window_starts_with_assistant_witness :
  exists first rest,
    get_recent_history {| window_size := 1 |}
      ([user_msg "q1"; assistant_msg "a1"] ++ [user_msg "q2"]) = first :: rest
    /\ first !! "role" = Some "assistant"
    /\ Z.of_nat (length (first :: rest)) = 2 * window_size {| window_size := 1 |}.
Proof.
  apply (window_starts_with_assistant {| window_size := 1 |}
           [user_msg "q1"; assistant_msg "a1"] "q2").
  - simpl. lia.
  - intros [|[|i]] msg Hi; cbn in Hi; [| |discriminate];
      injection Hi as <-; reflexivity.
  - exists 1%nat. reflexivity.
  - simpl. lia.
Defined.

End TurnHistoryFacts.
